(** * rec_wasm.cpp: the WASM dynarec backend, phase 1 (interpreter fallback)

    A shallow embedding of [WasmDynarec::compile] and [WasmDynarec::mainloop]
    and the properties of the backend contract stated about them.

    Integers are mathematical integers with the C++ wrap-around written out:
    [u32] for [u32] values (the program counter), [s32] for [int] values (the
    cycle counter).  The collaborators the file only calls (the opcode tables,
    the memory reader, the interrupt step, the exception entry) are section
    variables: every theorem holds for all of them. *)

From Stdlib Require Import ZArith List Bool Lia.
Import ListNotations.
Local Open Scope Z_scope.

(** ** Machine integers *)

Definition u32 (z : Z) : Z := z mod 2 ^ 32.

Definition s32 (z : Z) : Z := (z + 2 ^ 31) mod 2 ^ 32 - 2 ^ 31.

Definition is_int (z : Z) : Prop := - 2 ^ 31 <= z < 2 ^ 31.

(** [static constexpr int CYCLES_PER_INSTRUCTION = 1;] *)
Definition CYCLES_PER_INSTRUCTION : Z := 1.

(** ** The code buffer and [compile] *)

(** Modelled from the spec: the [Sh4CodeBuffer] class is declared in a header
    that is not part of the patch.  The spec describes it as an append-only
    byte region with a cursor and a remaining-capacity counter, with
    [cursor + remaining <= capacity]; [get] is the address at the cursor,
    [getFreeSpace] the remaining capacity, [advance n] moves the cursor by
    [n] bytes. *)
Record Sh4CodeBuffer : Type := mkBuffer
  { cursor : Z; remaining : Z; capacity : Z }.

Definition get (b : Sh4CodeBuffer) : Z := cursor b.

Definition getFreeSpace (b : Sh4CodeBuffer) : Z := remaining b.

Definition advance (n : Z) (b : Sh4CodeBuffer) : Sh4CodeBuffer :=
  {| cursor := cursor b + n; remaining := remaining b - n; capacity := capacity b |}.

(** The buffer invariant of the spec. *)
Definition buffer_ok (b : Sh4CodeBuffer) : Prop :=
  0 <= cursor b /\ 0 <= remaining b /\ cursor b + remaining b <= capacity b.

(** Modelled from the spec: [RuntimeBlockInfo] (blockmanager.h) is the block
    descriptor.  [compile] writes its [code] field only; [None] is a field
    that was never assigned.  [vaddr] stands for the decoded payload the
    block carries. *)
Record RuntimeBlockInfo : Type := mkBlock
  { vaddr : Z; code : option Z }.

Definition set_code (block : RuntimeBlockInfo) (entry : Z) : RuntimeBlockInfo :=
  {| vaddr := vaddr block; code := Some entry |}.

(** [WasmDynarec::compile], lines 54-70.  The entry is assigned first; the
    buffer is advanced by the 4-byte marker only when that much is free. *)
Definition compile (block : RuntimeBlockInfo) (smc_checks optimise : bool)
    (codeBuffer : Sh4CodeBuffer) : RuntimeBlockInfo * Sh4CodeBuffer :=
  let block := set_code block (get codeBuffer) in
  let spaceNeeded := 4 in
  if spaceNeeded <=? getFreeSpace codeBuffer
  then (block, advance spaceNeeded codeBuffer)
  else (block, codeBuffer).

(** [compile] called once per block of a list, in order, on the same buffer. *)
Fixpoint compile_all (blocks : list RuntimeBlockInfo) (smc_checks optimise : bool)
    (codeBuffer : Sh4CodeBuffer) : list RuntimeBlockInfo * Sh4CodeBuffer :=
  match blocks with
  | [] => ([], codeBuffer)
  | block :: blocks' =>
      let (block1, buf1) := compile block smc_checks optimise codeBuffer in
      let (done, buf2) := compile_all blocks' smc_checks optimise buf1 in
      (block1 :: done, buf2)
  end.

(** The number of units a buffer still has room for. *)
Definition units_left (b : Sh4CodeBuffer) : Z := getFreeSpace b / 4.

(** ** The processor context and the dispatch loop *)

(** Modelled from the spec: [Sh4Context] is declared in sh4_core.h, outside
    the patch.  The fields are the ones [mainloop] reads and writes ([pc],
    [sr.FD], [cycle_counter], [CpuRunning]); [fpu] is the floating-point
    register state and [rest] everything else the collaborators reach
    (general registers, memory, peripherals). *)
Record Sh4Context {Fpu Rest : Type} : Type := mkContext
  { pc : Z;
    sr_FD : Z;
    cycle_counter : Z;
    CpuRunning : bool;
    fpu : Fpu;
    rest : Rest }.
Arguments Sh4Context : clear implicits.
Arguments mkContext {Fpu Rest}.

(** What a C++ [throw] carries: [SH4ThrownException(epc, expEvn)], or
    anything else (only [catch (...)] matches it). *)
Inductive thrown : Type :=
  | SH4ThrownException (epc expEvn : Z)
  | OtherException.

(** How a piece of the loop ends: it completes, it throws (the context is the
    one at the throw: writes made before it stay), or the model's fuel is
    spent while the loop is still running. *)
Inductive outcome {S : Type} : Type :=
  | Normal (s : S)
  | Thrown (t : thrown) (s : S)
  | OutOfFuel.
Arguments outcome : clear implicits.

(** The calls the loop makes to its collaborators, each with the context the
    callee sees on entry. *)
Inductive event {S : Type} : Type :=
  | CallOp (addr op : Z) (seen : S)
  | CallUpdateSystem (seen : S)
  | CallDoException (epc expEvn : Z) (seen : S).
Arguments event : clear implicits.

Definition is_op {S : Type} (e : event S) : bool :=
  match e with CallOp _ _ _ => true | _ => false end.

Definition is_update {S : Type} (e : event S) : bool :=
  match e with CallUpdateSystem _ => true | _ => false end.

Definition is_handler {S : Type} (e : event S) : bool :=
  match e with CallDoException _ _ _ => true | _ => false end.

(** A timeslice boundary in the wide sense: the points after which the outer
    loop condition is evaluated. *)
Definition is_boundary {S : Type} (e : event S) : bool :=
  is_update e || is_handler e.

Definition count {S : Type} (p : event S -> bool) (tr : list (event S)) : nat :=
  length (filter p tr).

(** A result with the calls made so far put in front of its own. *)
Definition after {S : Type} (tr : list (event S))
    (r : outcome S * list (event S)) : outcome S * list (event S) :=
  (fst r, tr ++ snd r).

(** The collaborators [mainloop] calls and the constants it uses, none of
    them defined in the patch: [SH4_TIMESLICE] (sh4_sched.h),
    [Sh4Ex_FpuDisabled] (sh4_interrupts.h), [IReadMem16(addr)] (the opcode
    word, or the exception the read throws), [OpDesc[op]->IsFloatingPoint()],
    [OpPtr[op](sh4ctx, op)], [UpdateSystem_INTC()] and
    [Do_Exception(epc, expEvn)].  A call that does not return is [OutOfFuel]. *)
Class Collaborators (Fpu Rest : Type) : Type := mkCollaborators
  { SH4_TIMESLICE : Z;
    Sh4Ex_FpuDisabled : Z;
    IReadMem16 : Sh4Context Fpu Rest -> Z -> Z + thrown;
    IsFloatingPoint : Z -> bool;
    OpPtr : Z -> Sh4Context Fpu Rest -> outcome (Sh4Context Fpu Rest);
    UpdateSystem_INTC : Sh4Context Fpu Rest -> outcome (Sh4Context Fpu Rest);
    Do_Exception : Z -> Z -> Sh4Context Fpu Rest -> outcome (Sh4Context Fpu Rest) }.

Section Mainloop.

Context {Fpu Rest : Type} {sh4 : Collaborators Fpu Rest}.

Local Abbreviation context := (Sh4Context Fpu Rest).
Local Abbreviation result := (outcome context * list (event context))%type.

Definition set_pc (s : context) (v : Z) : context :=
  mkContext v (sr_FD s) (cycle_counter s) (CpuRunning s) (fpu s) (rest s).

Definition set_cycle_counter (s : context) (v : Z) : context :=
  mkContext (pc s) (sr_FD s) v (CpuRunning s) (fpu s) (rest s).

Definition set_CpuRunning (s : context) (v : bool) : context :=
  mkContext (pc s) (sr_FD s) (cycle_counter s) v (fpu s) (rest s).

(** The body of the inner [do] loop, lines 103-113: one instruction.  The
    counters [insn_count] and [timeslice_count] feed only the console log and
    are left out. *)
Definition insn (s : context) : result :=
  let addr := pc s in
  let s := set_pc s (u32 (addr + 2)) in
  match IReadMem16 s addr with
  | inr t => (Thrown t s, [])
  | inl op =>
      if (sr_FD s =? 1) && IsFloatingPoint op
      then (Thrown (SH4ThrownException addr Sh4Ex_FpuDisabled) s, [])
      else
        match OpPtr op s with
        | Normal s' =>
            (Normal (set_cycle_counter s'
                       (s32 (cycle_counter s' - CYCLES_PER_INSTRUCTION))),
             [CallOp addr op s])
        | Thrown t s' => (Thrown t s', [CallOp addr op s])
        | OutOfFuel => (OutOfFuel, [CallOp addr op s])
        end
  end.

(** The inner loop, lines 102-123: [do { ... } while (cycle_counter > 0)]. *)
Fixpoint inner (fuel : nat) (s : context) : result :=
  match fuel with
  | O => (OutOfFuel, [])
  | S fuel' =>
      match insn s with
      | (Normal s', tr) =>
          if 0 <? cycle_counter s' then after tr (inner fuel' s')
          else (Normal s', tr)
      | r => r
      end
  end.

(** Lines 126-128: the budget is replenished and the system step runs. *)
Definition rollover (s : context) : result :=
  let s := set_cycle_counter s (s32 (cycle_counter s + SH4_TIMESLICE)) in
  (UpdateSystem_INTC s, [CallUpdateSystem s]).

(** The body of the inner [try], lines 102-128. *)
Definition timeslice (fuel : nat) (s : context) : result :=
  match inner fuel s with
  | (Normal s', tr) => after tr (rollover s')
  | r => r
  end.

(** The handler of [catch (const SH4ThrownException& ex)], lines 131-132. *)
Definition handler (epc expEvn : Z) (s : context) : result :=
  match Do_Exception epc expEvn s with
  | Normal s' =>
      (Normal (set_cycle_counter s' (s32 (cycle_counter s' + 5))),
       [CallDoException epc expEvn s])
  | r => (r, [CallDoException epc expEvn s])
  end.

(** The inner [try] with its handler, lines 101-133.  An exception thrown
    inside the handler is not caught here. *)
Definition guarded (fuel : nat) (s : context) : result :=
  match timeslice fuel s with
  | (Thrown (SH4ThrownException epc expEvn) s', tr) =>
      after tr (handler epc expEvn s')
  | r => r
  end.

(** The outer loop, lines 100-134: [do { ... } while (CpuRunning)].  [rounds]
    bounds its iterations and [fuel] the instructions of each. *)
Fixpoint outer (rounds fuel : nat) (s : context) : result :=
  match rounds with
  | O => (OutOfFuel, [])
  | S rounds' =>
      match guarded fuel s with
      | (Normal s', tr) =>
          if CpuRunning s' then after tr (outer rounds' fuel s')
          else (Normal s', tr)
      | r => r
      end
  end.

(** [mainloop], lines 72-151: the outer loop inside [try { } catch (...)],
    then [CpuRunning = false].  The result is the final context with the
    local [exited_via_exception], or [None] when the fuel is spent before the
    loop ends, and the calls made.  The assignment to
    [Sh4Interpreter::Instance] and the console log do not touch the context
    and are left out. *)
Definition mainloop (rounds fuel : nat) (s : context)
    : option (context * bool) * list (event context) :=
  match outer rounds fuel s with
  | (Normal s', tr) => (Some (set_CpuRunning s' false, false), tr)
  | (Thrown _ s', tr) => (Some (set_CpuRunning s' false, true), tr)
  | (OutOfFuel, tr) => (None, tr)
  end.

(** What holds of every call to the semantics table: the context it sees
    has the program counter two bytes past the address the opcode was read
    from, and the floating-point guard did not fire on it. *)
Definition dispatched_ok (e : event context) : Prop :=
  match e with
  | CallOp addr op seen =>
      pc seen = u32 (addr + 2)
      /\ (sr_FD seen =? 1) && IsFloatingPoint op = false
  | _ => True
  end.

Definition pc_advanced (e : event context) : Prop :=
  match e with
  | CallOp addr op seen => pc seen = u32 (addr + 2)
  | _ => True
  end.

Definition fp_guarded (e : event context) : Prop :=
  match e with
  | CallOp addr op seen => sr_FD seen = 1 -> IsFloatingPoint op = false
  | _ => True
  end.

End Mainloop.

(** ** A small machine to run the loop on

    Memory is a list of opcode words from address 0, two bytes each, and
    [NOP] (0x0009) beyond it.  Opcodes 0xFxxx are floating-point, except
    0xFFFD, the undefined instruction, whose semantics throws.  Opcode 0x001B
    stands for a halt request: its semantics clears the running flag.  The
    exception entry saves nothing and jumps to the vector at 0x100. *)
Definition demo : Collaborators unit (list Z) :=
  {| SH4_TIMESLICE := 448;
     Sh4Ex_FpuDisabled := 0x800;
     IReadMem16 := fun s addr => inl (nth (Z.to_nat (addr / 2)) (rest s) 0x0009);
     IsFloatingPoint := fun op => (0xF000 <=? op) && negb (op =? 0xFFFD);
     OpPtr := fun op s =>
       if op =? 0xFFFD then Thrown (SH4ThrownException (pc s - 2) 0x180) s
       else if op =? 0x001B then Normal (set_CpuRunning s false)
       else Normal s;
     UpdateSystem_INTC := fun s => Normal s;
     Do_Exception := fun epc expEvn s => Normal (set_pc s 0x100) |}.

Definition demo_context (fd budget : Z) (running : bool) (program : list Z)
    : Sh4Context unit (list Z) :=
  mkContext 0 fd budget running tt program.

(** The contexts of the small machine on which every instruction is a
    [NOP]: empty memory and FD clear. *)
Definition all_nops (s : Sh4Context unit (list Z)) : Prop :=
  rest s = [] /\ sr_FD s = 0.

(** ** The diagnostic counters of [mainloop]

    The locals [insn_count] and [timeslice_count] (lines 95-96, both [u32])
    are carried beside the loop: line 113 counts an instruction once its
    semantics has returned, line 127 a rollover before the system step is
    called.  The console output they feed is not modelled. *)
Record counters : Type := mkCounters
  { insn_count : Z; timeslice_count : Z }.

Definition in_u32 (z : Z) : Prop := 0 <= z < 2 ^ 32.

Section MainloopCounters.

Context {Fpu Rest : Type} {sh4 : Collaborators Fpu Rest}.

Local Abbreviation context := (Sh4Context Fpu Rest).
Local Abbreviation result := (outcome context * list (event context))%type.

(** The inner loop with [insn_count++], lines 102-123. *)
Fixpoint inner_counted (fuel : nat) (s : context) (n : Z) : result * Z :=
  match fuel with
  | O => ((OutOfFuel, []), n)
  | S fuel' =>
      match insn s with
      | (Normal s', tr) =>
          let n := u32 (n + 1) in
          if 0 <? cycle_counter s'
          then let (r, n') := inner_counted fuel' s' n in (after tr r, n')
          else ((Normal s', tr), n)
      | r => (r, n)
      end
  end.

(** The inner [try] body with [timeslice_count++], lines 102-128. *)
Definition timeslice_counted (fuel : nat) (s : context) (c : counters)
    : result * counters :=
  match inner_counted fuel s (insn_count c) with
  | ((Normal s', tr), n) =>
      (after tr (rollover s'), mkCounters n (u32 (timeslice_count c + 1)))
  | (r, n) => (r, mkCounters n (timeslice_count c))
  end.

(** Lines 101-133; the handler touches no counter. *)
Definition guarded_counted (fuel : nat) (s : context) (c : counters)
    : result * counters :=
  match timeslice_counted fuel s c with
  | ((Thrown (SH4ThrownException epc expEvn) s', tr), c') =>
      (after tr (handler epc expEvn s'), c')
  | r => r
  end.

(** Lines 100-134. *)
Fixpoint outer_counted (rounds fuel : nat) (s : context) (c : counters)
    : result * counters :=
  match rounds with
  | O => ((OutOfFuel, []), c)
  | S rounds' =>
      match guarded_counted fuel s c with
      | ((Normal s', tr), c') =>
          if CpuRunning s'
          then let (r, c'') := outer_counted rounds' fuel s' c' in (after tr r, c'')
          else ((Normal s', tr), c')
      | r => r
      end
  end.

(** [mainloop] with the values of its locals at line 147: the counters
    start at 0 (lines 95-96). *)
Definition mainloop_counted (rounds fuel : nat) (s : context)
    : (option (context * bool) * list (event context)) * counters :=
  match outer_counted rounds fuel s (mkCounters 0 0) with
  | ((Normal s', tr), c) => ((Some (set_CpuRunning s' false, false), tr), c)
  | ((Thrown _ s', tr), c) => ((Some (set_CpuRunning s' false, true), tr), c)
  | ((OutOfFuel, tr), c) => ((None, tr), c)
  end.

(** Of a call of the system step: the budget it sees is an [int] and at
    most one quantum. *)
Definition update_bounded (e : event context) : Prop :=
  match e with
  | CallUpdateSystem seen =>
      is_int (cycle_counter seen) /\ cycle_counter seen <= SH4_TIMESLICE
  | _ => True
  end.

End MainloopCounters.

(** ** Registration of the backend

    [sh4Dynarec] is the global pointer to the selected backend (declared
    outside the patch), null until a backend registers; a pointer is an
    [option].  The constructor (lines 37-40) stores [this] in it;
    [wasm_dynarec_init] (lines 193-197) stores the static instance only when
    it is null. *)
Definition WasmDynarec_new {A : Type} (this : A) (sh4Dynarec : option A) : option A :=
  Some this.

Definition wasm_dynarec_init {A : Type} (instance : A) (sh4Dynarec : option A)
    : option A :=
  match sh4Dynarec with
  | None => Some instance
  | Some _ => sh4Dynarec
  end.

(** On the small machine: memory filled with a floating-point opcode up to
    the exception vector, FD set and the processor running, at the start of
    memory or at the vector.  Every instruction met there faults. *)
Definition storm_program : list Z := repeat 0xF00C 129.

Definition storming (s : Sh4Context unit (list Z)) : Prop :=
  sr_FD s = 1 /\ CpuRunning s = true /\ rest s = storm_program
  /\ (pc s = 0 \/ pc s = 0x100).

(** The small machine with a broken host: opcode 0x0000 makes the
    semantics throw something that is no [SH4ThrownException], and the
    exception entry throws the exception it is given. *)
Definition demo_broken : Collaborators unit (list Z) :=
  {| SH4_TIMESLICE := 448;
     Sh4Ex_FpuDisabled := 0x800;
     IReadMem16 := fun s addr => inl (nth (Z.to_nat (addr / 2)) (rest s) 0x0009);
     IsFloatingPoint := fun op => 0xF000 <=? op;
     OpPtr := fun op s => if op =? 0 then Thrown OtherException s else Normal s;
     UpdateSystem_INTC := fun s => Normal s;
     Do_Exception := fun epc expEvn s => Thrown (SH4ThrownException epc expEvn) s |}.

(** ** Properties of [compile] *)

Lemma compile_buffer (block : RuntimeBlockInfo) (smc opt : bool) (b : Sh4CodeBuffer) :
  snd (compile block smc opt b) = if 4 <=? getFreeSpace b then advance 4 b else b.
Proof. unfold compile. destruct (4 <=? getFreeSpace b); reflexivity. Qed.

Lemma compile_entry (block : RuntimeBlockInfo) (smc opt : bool) (b : Sh4CodeBuffer) :
  code (fst (compile block smc opt b)) = Some (get b).
Proof. unfold compile. destruct (4 <=? getFreeSpace b); reflexivity. Qed.

Lemma compile_all_cons (block : RuntimeBlockInfo) (blocks : list RuntimeBlockInfo)
    (smc opt : bool) (b : Sh4CodeBuffer) :
  snd (compile_all (block :: blocks) smc opt b)
  = snd (compile_all blocks smc opt (snd (compile block smc opt b))).
Proof.
  simpl. destruct (compile block smc opt b) as [block1 buf1]. simpl.
  destruct (compile_all blocks smc opt buf1). reflexivity.
Qed.

(** After any number of calls the buffer holds as many more units as were
    asked for, or as it had room for, whichever is less. *)
Lemma compile_all_closed_form (blocks : list RuntimeBlockInfo) (smc opt : bool) :
  forall b, 0 <= remaining b ->
    let k := Z.min (Z.of_nat (length blocks)) (units_left b) in
    snd (compile_all blocks smc opt b)
    = {| cursor := cursor b + 4 * k;
         remaining := remaining b - 4 * k;
         capacity := capacity b |}.
Proof.
  induction blocks as [|block blocks IH]; intros b Hb k.
  - subst k. simpl. unfold units_left, getFreeSpace.
    assert (0 <= remaining b / 4) by (apply Z.div_pos; lia).
    rewrite Z.min_l by lia. destruct b; simpl. f_equal; lia.
  - rewrite compile_all_cons, compile_buffer.
    subst k. unfold units_left, getFreeSpace in *.
    destruct (4 <=? remaining b) eqn:E.
    + apply Z.leb_le in E. rewrite IH by (simpl; lia).
      unfold units_left, getFreeSpace. simpl cursor. simpl remaining. simpl capacity.
      replace (remaining b - 4) with (remaining b + (-1) * 4) by lia.
      rewrite Z.div_add by lia.
      replace (remaining b + -1 * 4) with (remaining b - 4) by lia.
      cbn [length]. rewrite Nat2Z.inj_succ. f_equal; lia.
    + apply Z.leb_gt in E. rewrite IH by assumption.
      unfold units_left, getFreeSpace.
      rewrite (Z.div_small (remaining b) 4) by lia.
      rewrite !Z.min_r by lia. reflexivity.
Qed.

(** C9.  [compile] called N times with its 4-byte unit advances the cursor by
    exactly 4 N when the free space suffices for all N, leaves the buffer as
    it is once fewer than 4 bytes are free, always moves the cursor by whole
    units (as many as were asked for or as fit), and keeps the buffer
    invariant: the cursor never passes the capacity. *)
Theorem compile_accounting (blocks : list RuntimeBlockInfo) (smc opt : bool)
    (b : Sh4CodeBuffer) (Hb : buffer_ok b) :
  let b' := snd (compile_all blocks smc opt b) in
  let N := Z.of_nat (length blocks) in
  (4 * N <= getFreeSpace b ->
     get b' = get b + N * 4 /\ getFreeSpace b' = getFreeSpace b - N * 4)
  /\ (getFreeSpace b < 4 -> b' = b)
  /\ get b' = get b + 4 * Z.min N (units_left b)
  /\ buffer_ok b'.
Proof.
  intros b' N. destruct Hb as (Hc & Hr & Hcap).
  assert (Hu : 0 <= units_left b /\ 4 * units_left b <= remaining b).
  { unfold units_left, getFreeSpace. split; [apply Z.div_pos; lia|].
    apply Z.mul_div_le; lia. }
  assert (HN : 0 <= N) by (subst N; lia).
  subst b'. rewrite compile_all_closed_form by assumption.
  fold N. unfold get, getFreeSpace, buffer_ok. cbn [cursor remaining capacity].
  split; [|split; [|split]].
  - intros Hroom. assert (N <= units_left b).
    { unfold units_left, getFreeSpace. apply Z.div_le_lower_bound; lia. }
    rewrite Z.min_l by lia. lia.
  - intros Hfull. assert (units_left b = 0).
    { unfold units_left, getFreeSpace. apply Z.div_small; lia. }
    rewrite Z.min_r by lia. destruct b as [c r k].
    cbn [cursor remaining capacity] in *. f_equal; lia.
  - reflexivity.
  - lia.
Qed.

Lemma compile_accounting_witness :
  buffer_ok (mkBuffer 0 10 10)
  /\ get (snd (compile_all [mkBlock 0 None; mkBlock 2 None; mkBlock 4 None]
                 true false (mkBuffer 0 10 10))) = 0 + 4 * Z.min 3 2.
Proof.
  assert (H : buffer_ok (mkBuffer 0 10 10)) by (unfold buffer_ok; simpl; lia).
  split; [exact H|].
  apply (compile_accounting [mkBlock 0 None; mkBlock 2 None; mkBlock 4 None]
           true false (mkBuffer 0 10 10) H).
Defined.




(** C2.  The code on a buffer with no free space: two consecutive calls
    hand out the same entry address, the cursor's.  The advance that lines
    65-66 make "to give this block a unique address" is skipped, the
    assignment of the entry is not. *)
Lemma compile_full_buffer_aliases :
  let first := compile (mkBlock 0 None) false false (mkBuffer 4 0 4) in
  let second := compile (mkBlock 2 None) false false (snd first) in
  getFreeSpace (mkBuffer 4 0 4) = 0
  /\ code (fst first) = Some 4
  /\ code (fst second) = Some 4
  /\ code (fst first) = code (fst second).
Proof. cbv. repeat split. Qed.

(** ** Properties of the dispatch loop *)

Lemma s32_is_int (z : Z) : is_int (s32 z).
Proof.
  unfold is_int, s32.
  pose proof (Z.mod_pos_bound (z + 2 ^ 31) (2 ^ 32) eq_refl). lia.
Qed.

Lemma s32_id (z : Z) : is_int z -> s32 z = z.
Proof.
  unfold is_int, s32. intros H. rewrite Z.mod_small; lia.
Qed.

Lemma after_nil {S : Type} (r : outcome S * list (event S)) : after [] r = r.
Proof. destruct r; reflexivity. Qed.

Section MainloopProperties.

Context {Fpu Rest : Type} {sh4 : Collaborators Fpu Rest}.

Local Abbreviation context := (Sh4Context Fpu Rest).

(** The calls one instruction makes: none, or the one call of the opcode's
    semantics on the context with the advanced program counter. *)
Lemma insn_trace (s : context) :
  snd (insn s) = []
  \/ exists op,
       IReadMem16 (set_pc s (u32 (pc s + 2))) (pc s) = inl op
       /\ (sr_FD s =? 1) && IsFloatingPoint op = false
       /\ snd (insn s) = [CallOp (pc s) op (set_pc s (u32 (pc s + 2)))].
Proof.
  unfold insn.
  destruct (IReadMem16 (set_pc s (u32 (pc s + 2))) (pc s)) as [op|t]; [|now left].
  cbn [sr_FD set_pc].
  destruct ((sr_FD s =? 1) && IsFloatingPoint op) eqn:E; [now left|].
  right. exists op. split; [reflexivity|split; [exact E|]].
  destruct (OpPtr op (set_pc s (u32 (pc s + 2)))); reflexivity.
Qed.

Lemma insn_dispatched_ok (s : context) : Forall dispatched_ok (snd (insn s)).
Proof.
  destruct (insn_trace s) as [E|(op & _ & Hg & E)]; rewrite E; constructor.
  - simpl. auto.
  - constructor.
Qed.

Lemma insn_only_ops (s : context) : Forall (fun e => is_op e = true) (snd (insn s)).
Proof.
  destruct (insn_trace s) as [E|(op & _ & _ & E)]; rewrite E; repeat constructor.
Qed.

(** A normal end of one instruction: the semantics returned and one cycle
    was taken off what it left in the counter. *)
Lemma insn_normal (s s' : context) (tr : list (event context)) :
  insn s = (Normal s', tr) ->
  exists op s1,
    OpPtr op (set_pc s (u32 (pc s + 2))) = Normal s1
    /\ s' = set_cycle_counter s1 (s32 (cycle_counter s1 - CYCLES_PER_INSTRUCTION))
    /\ tr = [CallOp (pc s) op (set_pc s (u32 (pc s + 2)))].
Proof.
  unfold insn.
  destruct (IReadMem16 (set_pc s (u32 (pc s + 2))) (pc s)) as [op|t]; [|discriminate].
  destruct ((sr_FD (set_pc s (u32 (pc s + 2))) =? 1) && IsFloatingPoint op);
    [discriminate|].
  destruct (OpPtr op (set_pc s (u32 (pc s + 2)))) as [s1|t s1|] eqn:E;
    try discriminate.
  intros H. inversion H. exists op, s1. auto.
Qed.

Lemma insn_normal_is_int (s s' : context) (tr : list (event context)) :
  insn s = (Normal s', tr) -> is_int (cycle_counter s').
Proof.
  intros H. apply insn_normal in H. destruct H as (op & s1 & _ & -> & _).
  apply s32_is_int.
Qed.

(** Unfolding of the inner loop by one instruction. *)
Lemma inner_step (fuel : nat) (s : context) :
  inner (S fuel) s =
  match insn s with
  | (Normal s', tr) =>
      if 0 <? cycle_counter s' then after tr (inner fuel s') else (Normal s', tr)
  | r => r
  end.
Proof. reflexivity. Qed.

(** A property of single events that holds of the calls of each instruction
    and of the two boundary calls holds of every call of the loops. *)
Section TracePredicate.

Variable P : event context -> Prop.
Hypothesis P_insn : forall s, Forall P (snd (insn s)).
Hypothesis P_update : forall s, P (CallUpdateSystem s).
Hypothesis P_handler : forall epc expEvn s, P (CallDoException epc expEvn s).

Lemma after_forall (tr : list (event context))
    (r : outcome context * list (event context)) :
  Forall P tr -> Forall P (snd r) -> Forall P (snd (after tr r)).
Proof. intros H1 H2. unfold after. simpl. apply Forall_app. auto. Qed.

Lemma inner_forall (fuel : nat) : forall s, Forall P (snd (inner fuel s)).
Proof.
  induction fuel as [|fuel IH]; intros s; [constructor|].
  rewrite inner_step. pose proof (P_insn s) as H.
  destruct (insn s) as [[s'|t s'|] tr]; simpl in H; try exact H.
  destruct (0 <? cycle_counter s'); [|exact H].
  apply after_forall; auto.
Qed.

Lemma timeslice_forall (fuel : nat) (s : context) : Forall P (snd (timeslice fuel s)).
Proof.
  unfold timeslice. pose proof (inner_forall fuel s) as H.
  destruct (inner fuel s) as [[s'|t s'|] tr]; simpl in H; try exact H.
  apply after_forall; [exact H|]. unfold rollover. simpl. auto.
Qed.

Lemma handler_forall (epc expEvn : Z) (s : context) :
  Forall P (snd (handler epc expEvn s)).
Proof.
  unfold handler. destruct (Do_Exception epc expEvn s); simpl; auto.
Qed.

Lemma guarded_forall (fuel : nat) (s : context) : Forall P (snd (guarded fuel s)).
Proof.
  unfold guarded. pose proof (timeslice_forall fuel s) as H.
  destruct (timeslice fuel s) as [[s'|[epc expEvn|] s'|] tr]; simpl in H; try exact H.
  apply after_forall; [exact H|apply handler_forall].
Qed.

Lemma outer_forall (rounds fuel : nat) : forall s, Forall P (snd (outer rounds fuel s)).
Proof.
  induction rounds as [|rounds IH]; intros s; [constructor|].
  simpl. pose proof (guarded_forall fuel s) as H.
  destruct (guarded fuel s) as [[s'|t s'|] tr]; simpl in H; try exact H.
  destruct (CpuRunning s'); [|exact H].
  apply after_forall; auto.
Qed.

Lemma mainloop_forall (rounds fuel : nat) (s : context) :
  Forall P (snd (mainloop rounds fuel s)).
Proof.
  unfold mainloop. pose proof (outer_forall rounds fuel s) as H.
  destruct (outer rounds fuel s) as [[s'|t s'|] tr]; exact H.
Qed.

End TracePredicate.

Lemma mainloop_dispatched_ok (rounds fuel : nat) (s : context) :
  Forall dispatched_ok (snd (mainloop rounds fuel s)).
Proof.
  apply mainloop_forall; simpl; auto using insn_dispatched_ok.
Qed.

Lemma inner_only_ops (fuel : nat) :
  forall s, Forall (fun e => is_op e = true) (snd (inner fuel s)).
Proof.
  induction fuel as [|fuel IH]; intros s; [constructor|].
  rewrite inner_step. pose proof (insn_only_ops s) as H.
  destruct (insn s) as [[s'|t s'|] tr]; simpl in H; try exact H.
  destruct (0 <? cycle_counter s'); [|exact H].
  unfold after. simpl. apply Forall_app. auto.
Qed.

(** The inner loop ends normally only with the budget used up. *)
Lemma inner_normal_exhausted (fuel : nat) :
  forall s s1, fst (inner fuel s) = Normal s1 ->
    cycle_counter s1 <= 0 /\ is_int (cycle_counter s1).
Proof.
  induction fuel as [|fuel IH]; intros s s1; [discriminate|].
  rewrite inner_step. destruct (insn s) as [[s'|t s'|] tr] eqn:E; try discriminate.
  destruct (0 <? cycle_counter s') eqn:C.
  - unfold after. simpl. apply IH.
  - simpl. intros H. inversion H. subst s'. split.
    + apply Z.ltb_ge. exact C.
    + apply (insn_normal_is_int _ _ _ E).
Qed.

Lemma count_app (p : event context -> bool) (tr1 tr2 : list (event context)) :
  count p (tr1 ++ tr2) = (count p tr1 + count p tr2)%nat.
Proof. unfold count. rewrite filter_app, length_app. reflexivity. Qed.

Lemma count_ops_only (p : event context -> bool) (tr : list (event context)) :
  (forall e, is_op e = true -> p e = false) ->
  Forall (fun e => is_op e = true) tr -> count p tr = 0%nat.
Proof.
  intros Hp H. unfold count. induction H as [|e tr He _ IH]; [reflexivity|].
  simpl. rewrite (Hp e He). exact IH.
Qed.

Lemma ops_not_update (e : event context) : is_op e = true -> is_update e = false.
Proof. destruct e; simpl; congruence. Qed.

Lemma ops_not_handler (e : event context) : is_op e = true -> is_handler e = false.
Proof. destruct e; simpl; congruence. Qed.

(** The inner [try] body calls the exception entry never, and the system step
    once when the inner loop ended normally and not at all otherwise. *)
Lemma timeslice_counts (fuel : nat) (s : context) :
  count is_handler (snd (timeslice fuel s)) = 0%nat
  /\ count is_update (snd (timeslice fuel s))
     = match fst (inner fuel s) with Normal _ => 1%nat | _ => 0%nat end.
Proof.
  unfold timeslice. pose proof (inner_only_ops fuel s) as H.
  destruct (inner fuel s) as [[s'|t s'|] tr]; simpl in H |- *;
    try (split; apply count_ops_only; auto using ops_not_update, ops_not_handler).
  unfold after, rollover. cbn [fst snd]. rewrite !count_app.
  rewrite (count_ops_only is_handler tr), (count_ops_only is_update tr)
    by auto using ops_not_update, ops_not_handler.
  split; reflexivity.
Qed.

(** With a budget of [k + 1] and instructions that cost one cycle each and
    raise nothing, as long as [Inv] holds and the budget is positive, the
    inner loop runs exactly [k + 1] instructions and ends with the budget
    at 0. *)
Lemma inner_countdown (Inv : context -> Prop) (k : nat) :
  forall s fuel,
    (forall s0, Inv s0 -> 0 < cycle_counter s0 <= Z.of_nat (S k) ->
       exists s', fst (insn s0) = Normal s' /\ Inv s'
                  /\ cycle_counter s' = cycle_counter s0 - 1) ->
    Inv s ->
    cycle_counter s = Z.of_nat (S k) ->
    exists s' tr,
      inner (S k + fuel) s = (Normal s', tr)
      /\ length tr = S k /\ cycle_counter s' = 0.
Proof.
  induction k as [|k IH]; intros s fuel Hcost Hinv Hs.
  - destruct (Hcost s Hinv) as (s' & Hn & _ & Hc); [lia|].
    cbn [Nat.add]. rewrite inner_step.
    destruct (insn s) as [o tr] eqn:E. simpl in Hn. subst o.
    destruct (insn_normal _ _ _ E) as (op & s1 & _ & _ & ->).
    assert (C : (0 <? cycle_counter s') = false) by (apply Z.ltb_ge; lia).
    rewrite C. eexists _, _. repeat split. lia.
  - destruct (Hcost s Hinv) as (s' & Hn & Hinv' & Hc); [lia|].
    cbn [Nat.add]. rewrite inner_step.
    destruct (insn s) as [o tr] eqn:E. simpl in Hn. subst o.
    destruct (insn_normal _ _ _ E) as (op & s1 & _ & _ & ->).
    assert (C : (0 <? cycle_counter s') = true) by (apply Z.ltb_lt; lia).
    rewrite C.
    destruct (IH s' fuel) as (s'' & tr' & Hi & Hl & Hz).
    + intros s0 Hinv0 H0. apply Hcost; [exact Hinv0|lia].
    + exact Hinv'.
    + lia.
    + cbn [Nat.add] in Hi. rewrite Hi. unfold after. simpl.
      eexists _, _. repeat split; [|exact Hz]. simpl. rewrite Hl. reflexivity.
Qed.

(** A normal end of the inner [try] with its handler comes right after the
    system step or right after the exception entry. *)
Lemma guarded_normal_boundary (fuel : nat) (s s1 : context)
    (tr : list (event context)) :
  guarded fuel s = (Normal s1, tr) ->
  exists tr0 e, tr = tr0 ++ [e] /\ is_boundary e = true.
Proof.
  unfold guarded, timeslice.
  destruct (inner fuel s) as [[s'|[epc expEvn|] s'|] tr1].
  - unfold after, rollover. simpl.
    destruct (UpdateSystem_INTC _) as [s2|[epc expEvn|] s2|] eqn:U;
      try discriminate.
    + intros H. inversion H. eexists _, _. split; reflexivity.
    + unfold after, handler. simpl.
      destruct (Do_Exception epc expEvn s2); try discriminate.
      intros H. inversion H. eexists _, _. split; reflexivity.
  - unfold after, handler. simpl.
    destruct (Do_Exception epc expEvn s'); try discriminate.
    intros H. inversion H. eexists _, _. split; reflexivity.
  - discriminate.
  - discriminate.
Qed.

Lemma outer_normal_boundary (rounds fuel : nat) :
  forall s s' tr, outer rounds fuel s = (Normal s', tr) ->
    CpuRunning s' = false
    /\ exists tr0 e, tr = tr0 ++ [e] /\ is_boundary e = true.
Proof.
  induction rounds as [|rounds IH]; intros s s' tr; [discriminate|].
  simpl. destruct (guarded fuel s) as [[s1|t s1|] tr1] eqn:G; try discriminate.
  destruct (CpuRunning s1) eqn:R.
  - destruct (outer rounds fuel s1) as [o tr2] eqn:O. unfold after. simpl.
    intros H. inversion H. subst o tr.
    destruct (IH _ _ _ O) as (Hr & tr0 & e & -> & He).
    split; [exact Hr|]. exists (tr1 ++ tr0), e. rewrite app_assoc. auto.
  - intros H. inversion H. subst s1 tr1. split; [exact R|].
    apply (guarded_normal_boundary _ _ _ _ G).
Qed.

(** An instruction whose opcode is read and passes the floating-point guard
    is dispatched: the semantics is called once, on the context with the
    advanced program counter, and decides how the instruction ends. *)
Lemma insn_dispatch (s : context) (op : Z) :
  IReadMem16 (set_pc s (u32 (pc s + 2))) (pc s) = inl op ->
  (sr_FD s =? 1) && IsFloatingPoint op = false ->
  insn s
  = (match OpPtr op (set_pc s (u32 (pc s + 2))) with
     | Normal s' =>
         Normal (set_cycle_counter s'
                   (s32 (cycle_counter s' - CYCLES_PER_INSTRUCTION)))
     | Thrown t s' => Thrown t s'
     | OutOfFuel => OutOfFuel
     end,
     [CallOp (pc s) op (set_pc s (u32 (pc s + 2)))]).
Proof.
  intros Hr Hg. unfold insn. cbv zeta. rewrite Hr. cbn [sr_FD set_pc].
  rewrite Hg. destruct (OpPtr op (set_pc s (u32 (pc s + 2)))); reflexivity.
Qed.

(** The calls of a run start with the calls of its first instruction. *)
Lemma inner_starts (fuel : nat) (s : context) :
  exists more, snd (inner (S fuel) s) = snd (insn s) ++ more.
Proof.
  rewrite inner_step. destruct (insn s) as [[s'|t s'|] tr]; cbn [snd];
    try (exists []; rewrite app_nil_r; reflexivity).
  destruct (0 <? cycle_counter s').
  - unfold after. cbn [snd]. eexists. reflexivity.
  - exists []. rewrite app_nil_r. reflexivity.
Qed.

Lemma timeslice_starts (fuel : nat) (s : context) :
  exists more, snd (timeslice fuel s) = snd (inner fuel s) ++ more.
Proof.
  unfold timeslice. destruct (inner fuel s) as [[s'|t s'|] tr]; cbn [snd];
    try (exists []; rewrite app_nil_r; reflexivity).
  unfold after. cbn [snd]. eexists. reflexivity.
Qed.

Lemma guarded_starts (fuel : nat) (s : context) :
  exists more, snd (guarded fuel s) = snd (timeslice fuel s) ++ more.
Proof.
  unfold guarded. destruct (timeslice fuel s) as [[s'|[epc expEvn|] s'|] tr];
    cbn [snd]; try (exists []; rewrite app_nil_r; reflexivity).
  unfold after. cbn [snd]. eexists. reflexivity.
Qed.

Lemma outer_starts (rounds fuel : nat) (s : context) :
  exists more, snd (outer (S rounds) fuel s) = snd (guarded fuel s) ++ more.
Proof.
  cbn [outer]. destruct (guarded fuel s) as [[s'|t s'|] tr]; cbn [snd];
    try (exists []; rewrite app_nil_r; reflexivity).
  destruct (CpuRunning s').
  - unfold after. cbn [snd]. eexists. reflexivity.
  - exists []. rewrite app_nil_r. reflexivity.
Qed.

Lemma mainloop_calls (rounds fuel : nat) (s : context) :
  snd (mainloop rounds fuel s) = snd (outer rounds fuel s).
Proof.
  unfold mainloop. destruct (outer rounds fuel s) as [[s'|t s'|] tr]; reflexivity.
Qed.

Lemma mainloop_starts (rounds fuel : nat) (s : context) :
  exists more, snd (mainloop (S rounds) (S fuel) s) = snd (insn s) ++ more.
Proof.
  rewrite mainloop_calls.
  destruct (outer_starts rounds (S fuel) s) as [m1 ->].
  destruct (guarded_starts (S fuel) s) as [m2 ->].
  destruct (timeslice_starts (S fuel) s) as [m3 ->].
  destruct (inner_starts fuel s) as [m4 ->].
  rewrite <- !app_assoc. eexists. reflexivity.
Qed.

(** C7.  An instruction whose opcode is read and passes the floating-point
    guard is dispatched on a context whose program counter has already been
    advanced: the semantics is called once, it sees the address of the
    instruction plus 2 (as a [u32]; plus 2 exactly below the top of the
    address space), and it decides how the instruction ends.  That call is
    the first call [mainloop] makes from such a context, and in any run of
    [mainloop], however long, every call of the semantics table is made on a
    context whose program counter is the address the opcode was read from
    plus 2. *)
Theorem semantics_sees_next_pc (s : context) (op : Z)
    (Hread : IReadMem16 (set_pc s (u32 (pc s + 2))) (pc s) = inl op)
    (Hguard : (sr_FD s =? 1) && IsFloatingPoint op = false) :
  let s0 := set_pc s (u32 (pc s + 2)) in
  insn s
  = (match OpPtr op s0 with
     | Normal s' =>
         Normal (set_cycle_counter s'
                   (s32 (cycle_counter s' - CYCLES_PER_INSTRUCTION)))
     | Thrown t s' => Thrown t s'
     | OutOfFuel => OutOfFuel
     end,
     [CallOp (pc s) op s0])
  /\ pc s0 = u32 (pc s + 2)
  /\ (0 <= pc s -> pc s + 2 < 2 ^ 32 -> pc s0 = pc s + 2)
  /\ (forall rounds fuel,
        exists more,
          snd (mainloop (S rounds) (S fuel) s) = CallOp (pc s) op s0 :: more)
  /\ (forall rounds fuel (s1 : context),
        Forall pc_advanced (snd (mainloop rounds fuel s1))).
Proof.
  intros s0. pose proof (insn_dispatch s op Hread Hguard) as E. fold s0 in E.
  split; [exact E|]. split; [reflexivity|]. split; [|split].
  - intros H0 H1. subst s0. cbn [pc set_pc]. unfold u32.
    apply Z.mod_small. lia.
  - intros rounds fuel. destruct (mainloop_starts rounds fuel s) as [more Hm].
    rewrite E in Hm. exists more. exact Hm.
  - intros rounds fuel s1.
    apply Forall_impl with (P := dispatched_ok).
    + intros [addr o seen| |]; simpl; tauto.
    + apply mainloop_dispatched_ok.
Qed.

(** C6.  An instruction whose opcode is floating-point, met with the FD flag
    set, raises the FPU-disabled exception with its own address and makes no
    call to the semantics table; only the program counter has been written,
    so the floating-point state is untouched; the exception goes to the
    exception entry with that address.  And in no run of [mainloop] is a
    floating-point opcode dispatched on a context with FD set. *)
Theorem fpu_disabled_raises (s : context) (op : Z)
    (Hfd : sr_FD s = 1)
    (Hread : IReadMem16 (set_pc s (u32 (pc s + 2))) (pc s) = inl op)
    (Hfp : IsFloatingPoint op = true) :
  let s' := set_pc s (u32 (pc s + 2)) in
  insn s = (Thrown (SH4ThrownException (pc s) Sh4Ex_FpuDisabled) s', [])
  /\ fpu s' = fpu s /\ rest s' = rest s
  /\ (forall fuel, guarded (S fuel) s = handler (pc s) Sh4Ex_FpuDisabled s')
  /\ (forall rounds fuel (s0 : context),
        Forall fp_guarded (snd (mainloop rounds fuel s0))).
Proof.
  intros s'.
  assert (E : insn s = (Thrown (SH4ThrownException (pc s) Sh4Ex_FpuDisabled) s', [])).
  { subst s'. unfold insn. cbv zeta. rewrite Hread. cbn [sr_FD set_pc].
    rewrite Hfd, Hfp. reflexivity. }
  split; [exact E|]. split; [reflexivity|]. split; [reflexivity|]. split.
  - intros fuel. unfold guarded, timeslice. rewrite inner_step, E.
    apply after_nil.
  - intros rounds fuel s0.
    apply Forall_impl with (P := dispatched_ok).
    + intros [addr o seen| |]; simpl; auto.
      intros [_ H] Hseen. rewrite Hseen in H. exact H.
    + apply mainloop_dispatched_ok.
Qed.

(** C10.  When the semantics of a dispatched instruction throws a processor
    exception, the context handed to the exception entry is the one the
    semantics left, with no cycle taken off, and after the handler the
    counter is what the exception entry left plus the 5 drain cycles. *)
Theorem faulting_instruction_not_charged (s s1 s2 : context) (op epc expEvn : Z)
    (Hread : IReadMem16 (set_pc s (u32 (pc s + 2))) (pc s) = inl op)
    (Hguard : (sr_FD s =? 1) && IsFloatingPoint op = false)
    (Hthrow : OpPtr op (set_pc s (u32 (pc s + 2)))
              = Thrown (SH4ThrownException epc expEvn) s1)
    (Hentry : Do_Exception epc expEvn s1 = Normal s2) :
  let s0 := set_pc s (u32 (pc s + 2)) in
  insn s = (Thrown (SH4ThrownException epc expEvn) s1, [CallOp (pc s) op s0])
  /\ forall fuel,
       guarded (S fuel) s
       = (Normal (set_cycle_counter s2 (s32 (cycle_counter s2 + 5))),
          [CallOp (pc s) op s0; CallDoException epc expEvn s1])
       /\ (is_int (cycle_counter s2 + 5) ->
           exists s3, fst (guarded (S fuel) s) = Normal s3
                      /\ cycle_counter s3 = cycle_counter s2 + 5).
Proof.
  intros s0.
  assert (E : insn s
              = (Thrown (SH4ThrownException epc expEvn) s1, [CallOp (pc s) op s0])).
  { subst s0. unfold insn. cbv zeta. rewrite Hread. cbn [sr_FD set_pc].
    rewrite Hguard, Hthrow. reflexivity. }
  split; [exact E|]. intros fuel.
  assert (G : guarded (S fuel) s
              = (Normal (set_cycle_counter s2 (s32 (cycle_counter s2 + 5))),
                 [CallOp (pc s) op s0; CallDoException epc expEvn s1])).
  { unfold guarded, timeslice. rewrite inner_step, E.
    unfold after, handler. rewrite Hentry. reflexivity. }
  split; [exact G|]. intros Hint. rewrite G. eexists. split; [reflexivity|].
  cbn [cycle_counter set_cycle_counter]. apply s32_id. exact Hint.
Qed.

(** The rollover after a normal end of the inner loop, with the counter's
    wrap-around discharged: the sum stays an [int]. *)
Lemma timeslice_rollover (HQ : 0 <= SH4_TIMESLICE < 2 ^ 31)
    (fuel : nat) (s s1 : context) (tr : list (event context)) :
  inner fuel s = (Normal s1, tr) ->
  cycle_counter s1 <= 0
  /\ timeslice fuel s
     = (UpdateSystem_INTC (set_cycle_counter s1 (cycle_counter s1 + SH4_TIMESLICE)),
        tr ++ [CallUpdateSystem
                 (set_cycle_counter s1 (cycle_counter s1 + SH4_TIMESLICE))]).
Proof.
  intros Hexhausted.
  destruct (inner_normal_exhausted fuel s s1) as [Hle Hint];
    [rewrite Hexhausted; reflexivity|].
  split; [exact Hle|].
  unfold timeslice. rewrite Hexhausted. unfold after, rollover. cbn [fst snd].
  rewrite s32_id by (unfold is_int in *; lia). reflexivity.
Qed.

(** C8, as the code has it.  When the inner loop ends with the budget used up, the counter is
    not positive; the rollover sets it to that value plus [SH4_TIMESLICE] and
    calls the system step on the context so replenished; the inner [try] body
    has called the system step exactly once. *)
Theorem rollover_replenishes (HQ : 0 <= SH4_TIMESLICE < 2 ^ 31)
    (fuel : nat) (s s1 : context) (tr : list (event context))
    (Hexhausted : inner fuel s = (Normal s1, tr)) :
  let s2 := set_cycle_counter s1 (cycle_counter s1 + SH4_TIMESLICE) in
  cycle_counter s1 <= 0
  /\ timeslice fuel s = (UpdateSystem_INTC s2, tr ++ [CallUpdateSystem s2])
  /\ cycle_counter s2 = cycle_counter s1 + SH4_TIMESLICE
  /\ count is_update (snd (timeslice fuel s)) = 1%nat.
Proof.
  intros s2.
  destruct (timeslice_rollover HQ _ _ _ _ Hexhausted) as [Hle Ht].
  split; [exact Hle|]. split; [exact Ht|]. split; [reflexivity|].
  destruct (timeslice_counts fuel s) as [_ H]. rewrite H, Hexhausted. reflexivity.
Qed.

(** C5, as the code has it.  With the budget at 10 and instructions that
    cost one cycle each and raise nothing (on the contexts [Inv] describes),
    the inner loop runs exactly 10 instructions and ends with the budget at
    0; the rollover then sets the budget to [SH4_TIMESLICE] (0 plus the
    quantum) and calls the system step, before any 11th instruction. *)
Theorem ten_instructions_then_rollover (HQ : 0 <= SH4_TIMESLICE < 2 ^ 31)
    (Inv : context -> Prop)
    (Hcost : forall s0 : context, Inv s0 -> 0 < cycle_counter s0 <= 10 ->
       exists s', fst (insn s0) = Normal s' /\ Inv s'
                  /\ cycle_counter s' = cycle_counter s0 - 1)
    (s : context) (Hinv : Inv s) (Hbudget : cycle_counter s = 10) (fuel : nat) :
  exists s10 tr,
    inner (10 + fuel) s = (Normal s10, tr)
    /\ length tr = 10%nat
    /\ Forall (fun e => is_op e = true) tr
    /\ cycle_counter s10 = 0
    /\ let s11 := set_cycle_counter s10 SH4_TIMESLICE in
       timeslice (10 + fuel) s = (UpdateSystem_INTC s11, tr ++ [CallUpdateSystem s11])
       /\ cycle_counter s11 = SH4_TIMESLICE.
Proof.
  destruct (inner_countdown Inv 9 s fuel) as (s10 & tr & Hi & Hl & Hz).
  - intros s0 Hinv0 H0. apply Hcost; [exact Hinv0|lia].
  - exact Hinv.
  - rewrite Hbudget. reflexivity.
  - exists s10, tr. split; [exact Hi|]. split; [exact Hl|]. split.
    + pose proof (inner_only_ops (10 + fuel) s) as H. rewrite Hi in H. exact H.
    + split; [exact Hz|]. intros s11.
      destruct (timeslice_rollover HQ _ _ _ _ Hi) as (_ & Ht).
      rewrite Hz in Ht. split; [exact Ht|reflexivity].
Qed.

(** A round of the outer loop ends normally in one of two ways: by the
    rollover of a timeslice whose inner loop ran until the budget was used
    up, or by the handler of a processor exception. *)
Lemma guarded_normal_cases (fuel : nat) (s s1 : context)
    (tr : list (event context)) :
  guarded fuel s = (Normal s1, tr) ->
  (exists s0 tr0,
      inner fuel s = (Normal s0, tr0)
      /\ cycle_counter s0 <= 0
      /\ UpdateSystem_INTC
           (set_cycle_counter s0 (s32 (cycle_counter s0 + SH4_TIMESLICE)))
         = Normal s1
      /\ tr = tr0 ++ [CallUpdateSystem
                        (set_cycle_counter s0
                           (s32 (cycle_counter s0 + SH4_TIMESLICE)))])
  \/ (exists epc expEvn sx trx,
        timeslice fuel s = (Thrown (SH4ThrownException epc expEvn) sx, trx)
        /\ tr = trx ++ [CallDoException epc expEvn sx]).
Proof.
  unfold guarded.
  destruct (timeslice fuel s) as [[s'|[epc expEvn|] s'|] tr1] eqn:T;
    try discriminate.
  - intros H. inversion H. subst s' tr1. left. unfold timeslice in T.
    pose proof (inner_normal_exhausted fuel s) as He.
    destruct (inner fuel s) as [[s0|t s0|] tr0]; try discriminate.
    destruct (He s0 eq_refl) as [Hle _].
    unfold after, rollover in T. cbn [fst snd] in T. inversion T.
    exists s0, tr0. auto.
  - unfold after, handler. cbn [fst snd].
    destruct (Do_Exception epc expEvn s'); try discriminate.
    intros H. inversion H. right. exists epc, expEvn, s', tr1. auto.
Qed.

(** A normal end of the outer loop is the normal end of its last round, with
    the flag false. *)
Lemma outer_last_round (rounds fuel : nat) :
  forall (s sf : context) tr, outer rounds fuel s = (Normal sf, tr) ->
    CpuRunning sf = false
    /\ exists s_last before tr_last,
         tr = before ++ tr_last /\ guarded fuel s_last = (Normal sf, tr_last).
Proof.
  induction rounds as [|rounds IH]; intros s sf tr; [discriminate|].
  simpl. destruct (guarded fuel s) as [[s1|t s1|] tr1] eqn:G; try discriminate.
  destruct (CpuRunning s1) eqn:R.
  - destruct (outer rounds fuel s1) as [o tr2] eqn:O. unfold after. simpl.
    intros H. inversion H. subst o tr.
    destruct (IH _ _ _ O) as (Hr & s_last & before & tr_last & -> & Hg).
    split; [exact Hr|]. exists s_last, (tr1 ++ before), tr_last.
    rewrite app_assoc. auto.
  - intros H. inversion H. subst s1 tr1. split; [exact R|].
    exists s, [], tr. auto.
Qed.

(** C4, as the code has it.  The running flag is tested at the outer loop
    condition only.  When [mainloop] returns normally the flag was false at
    the end of its last round, and that round ended in one of two ways:
    its inner loop ran until the budget was used up (counter not positive)
    and the system step was called, or a processor exception was raised and
    the exception entry called.  The first time a round ends with the flag
    false the loop ends, with no further instruction; and inside a
    timeslice, while budget is left, the next instruction is dispatched
    whatever the flag is. *)
Theorem halt_checked_after_boundary (rounds fuel : nat) (s sf : context)
    (tr : list (event context))
    (Hexit : mainloop rounds fuel s = (Some (sf, false), tr)) :
  CpuRunning sf = false
  /\ (exists s_last before tr_last,
        tr = before ++ tr_last
        /\ guarded fuel s_last = (Normal sf, tr_last)
        /\ ((exists s0 tr0,
               inner fuel s_last = (Normal s0, tr0)
               /\ cycle_counter s0 <= 0
               /\ UpdateSystem_INTC
                    (set_cycle_counter s0 (s32 (cycle_counter s0 + SH4_TIMESLICE)))
                  = Normal sf
               /\ tr_last
                  = tr0 ++ [CallUpdateSystem
                              (set_cycle_counter s0
                                 (s32 (cycle_counter s0 + SH4_TIMESLICE)))])
            \/ (exists epc expEvn sx trx,
                  timeslice fuel s_last
                  = (Thrown (SH4ThrownException epc expEvn) sx, trx)
                  /\ tr_last = trx ++ [CallDoException epc expEvn sx])))
  /\ (forall n f (s0 s1 : context) tr1,
        guarded f s0 = (Normal s1, tr1) -> CpuRunning s1 = false ->
        outer (S n) f s0 = (Normal s1, tr1))
  /\ (forall f (s0 s' : context) tr0,
        insn s0 = (Normal s', tr0) -> 0 < cycle_counter s' ->
        inner (S f) s0 = after tr0 (inner f s')).
Proof.
  unfold mainloop in Hexit.
  destruct (outer rounds fuel s) as [[s'|t s'|] tr0] eqn:O; try discriminate.
  inversion Hexit. subst tr0.
  destruct (outer_last_round _ _ _ _ _ O) as (Hr & s_last & before & tr_last & Ht & Hg).
  assert (Es : set_CpuRunning s' false = s').
  { destruct s'. simpl in Hr. subst. reflexivity. }
  rewrite Es in *. split; [exact Hr|]. split; [|split].
  - exists s_last, before, tr_last. split; [exact Ht|]. split; [exact Hg|].
    apply (guarded_normal_cases _ _ _ _ Hg).
  - intros n f s0 s1 tr1 G R. cbn [outer]. rewrite G, R. reflexivity.
  - intros f s0 s'' tr0 Hi Hc. rewrite inner_step, Hi.
    apply Z.ltb_lt in Hc. rewrite Hc. reflexivity.
Qed.

End MainloopProperties.

(** ** The loop on the small machine *)

Lemma fpu_disabled_raises_witness :
  let s := demo_context 1 100 true [0xF00C] in
  sr_FD s = 1
  /\ insn (sh4 := demo) s = (Thrown (SH4ThrownException 0 0x800) (set_pc s 2), []).
Proof.
  intros s. split; [reflexivity|].
  apply (fpu_disabled_raises (sh4 := demo) s 0xF00C eq_refl eq_refl eq_refl).
Defined.

Lemma faulting_instruction_not_charged_witness :
  let s := demo_context 0 100 true [0xFFFD] in
  OpPtr (Collaborators := demo) 0xFFFD (set_pc s 2)
  = Thrown (SH4ThrownException 0 0x180) (set_pc s 2)
  /\ insn (sh4 := demo) s
     = (Thrown (SH4ThrownException 0 0x180) (set_pc s 2),
        [CallOp 0 0xFFFD (set_pc s 2)]).
Proof.
  intros s. split; [reflexivity|].
  apply (faulting_instruction_not_charged (sh4 := demo) s (set_pc s 2)
           (set_pc (set_pc s 2) 0x100) 0xFFFD 0 0x180
           eq_refl eq_refl eq_refl eq_refl).
Defined.

Lemma rollover_replenishes_witness :
  let s := demo_context 0 2 true [] in
  let s1 := mkContext 4 0 0 true tt [] in
  inner (sh4 := demo) 5 s
  = (Normal s1, [CallOp 0 9 (set_pc s 2);
                 CallOp 2 9 (mkContext 4 0 1 true tt [])])
  /\ count is_update (snd (timeslice (sh4 := demo) 5 s)) = 1%nat.
Proof.
  intros s s1. split; [reflexivity|].
  assert (HQ : 0 <= SH4_TIMESLICE (Collaborators := demo) < 2 ^ 31)
    by (cbn; lia).
  apply (rollover_replenishes (sh4 := demo) HQ 5 s s1
           [CallOp 0 9 (set_pc s 2); CallOp 2 9 (mkContext 4 0 1 true tt [])]
           eq_refl).
Defined.

(** On those contexts an instruction returns and costs one cycle. *)
Lemma demo_nop_cost (s0 : Sh4Context unit (list Z)) :
  all_nops s0 -> 0 < cycle_counter s0 <= 10 ->
  exists s', fst (insn (sh4 := demo) s0) = Normal s' /\ all_nops s'
             /\ cycle_counter s' = cycle_counter s0 - 1.
Proof.
  destruct s0 as [p fd c r f m]. unfold all_nops. simpl.
  intros [-> ->] Hc. unfold insn. simpl.
  destruct (Z.to_nat (p / 2)); simpl;
    (eexists; split; [reflexivity|]; simpl; split; [auto|];
     apply s32_id; unfold is_int; lia).
Qed.

Lemma ten_instructions_then_rollover_witness :
  let s := demo_context 0 10 true [] in
  all_nops s /\ cycle_counter s = 10
  /\ exists s10 tr,
       inner (sh4 := demo) (10 + 0) s = (Normal s10, tr)
       /\ length tr = 10%nat
       /\ Forall (fun e => is_op e = true) tr
       /\ cycle_counter s10 = 0
       /\ let s11 := set_cycle_counter s10 448 in
          timeslice (sh4 := demo) (10 + 0) s
          = (Normal s11, tr ++ [CallUpdateSystem s11])
          /\ cycle_counter s11 = 448.
Proof.
  intros s.
  assert (Hinv : all_nops s) by (split; reflexivity).
  assert (HQ : 0 <= SH4_TIMESLICE (Collaborators := demo) < 2 ^ 31)
    by (cbn; lia).
  split; [exact Hinv|]. split; [reflexivity|].
  apply (ten_instructions_then_rollover (sh4 := demo) HQ all_nops demo_nop_cost
           s Hinv eq_refl 0%nat).
Defined.

Lemma semantics_sees_next_pc_witness :
  let s := demo_context 0 100 true [] in
  IReadMem16 (Collaborators := demo) (set_pc s 2) 0 = inl 9
  /\ insn (sh4 := demo) s
     = (Normal (mkContext 2 0 99 true tt []), [CallOp 0 9 (set_pc s 2)])
  /\ pc (set_pc s 2) = 0 + 2.
Proof.
  intros s. split; [reflexivity|].
  pose proof (semantics_sees_next_pc (sh4 := demo) s 9 eq_refl eq_refl)
    as (H1 & H2 & _).
  split; [exact H1|exact H2].
Defined.

Lemma halt_checked_after_boundary_witness :
  let s := demo_context 0 3 true [0x001B] in
  let sf := mkContext 6 0 448 false tt [0x001B] in
  let tr := [CallOp 0 0x001B (set_pc s 2);
             CallOp 2 9 (mkContext 4 0 2 false tt [0x001B]);
             CallOp 4 9 (mkContext 6 0 1 false tt [0x001B]);
             CallUpdateSystem sf] in
  mainloop (sh4 := demo) 2 5 s = (Some (sf, false), tr)
  /\ count is_op tr = 3%nat
  /\ CpuRunning sf = false.
Proof.
  intros s sf tr. split; [reflexivity|]. split; [reflexivity|].
  exact (proj1 (halt_checked_after_boundary (sh4 := demo) 2 5 s sf tr eq_refl)).
Defined.

(** C3.  The code at a raised exception: a floating-point opcode with FD
    set, a budget of 100 and the processor running.  The exception entry is
    called once and dispatch resumes at the address it wrote, 0x100, but
    line 132 has added the 5 drain cycles to the budget: the next
    instruction is dispatched with 105 cycles, more than the 100 there were
    before the exception, where line 112 takes the cost of an instruction
    off. *)
Lemma exception_drain_raises_budget :
  let s := demo_context 1 100 true [0xF00C] in
  let s1 := mkContext 2 1 100 true tt [0xF00C] in
  let s3 := mkContext 0x102 1 105 true tt [0xF00C] in
  outer (sh4 := demo) 2 1 s
  = (OutOfFuel, [CallDoException 0 0x800 s1; CallOp 0x100 9 s3])
  /\ guarded (sh4 := demo) 1 s
     = (Normal (mkContext 0x100 1 105 true tt [0xF00C]),
        [CallDoException 0 0x800 s1])
  /\ cycle_counter s < cycle_counter s3.
Proof. cbv. repeat split. Qed.

(** C4 as stated fails: a halt request followed by a floating-point opcode,
    with FD set.  The halt request of the first instruction takes effect
    after the exception of the second is handled, with 104 cycles of the
    budget left and no rollover made. *)
Lemma halt_mid_timeslice :
  let s := demo_context 1 100 true [0x001B; 0xF00C] in
  exists sf tr0 e,
    mainloop (sh4 := demo) 3 3 s = (Some (sf, false), tr0 ++ [e])
    /\ is_handler e = true
    /\ 0 < cycle_counter sf
    /\ count is_update (tr0 ++ [e]) = 0%nat.
Proof.
  cbv.
  eexists _, [CallOp 0 27 (mkContext 2 1 100 true tt [27; 61452])], _.
  repeat split.
Qed.

(** C5 as stated fails: starting from a budget of 10, after ten [NOP]s the
    system step is entered with the budget at the quantum, 448, and not at
    10 plus the quantum. *)
Lemma ten_instructions_budget :
  let s := demo_context 0 10 true [] in
  let s11 := mkContext 20 0 448 true tt [] in
  count is_op (snd (timeslice (sh4 := demo) 10 s)) = 10%nat
  /\ fst (timeslice (sh4 := demo) 10 s) = Normal s11
  /\ last (snd (timeslice (sh4 := demo) 10 s)) (CallUpdateSystem s)
     = CallUpdateSystem s11
  /\ cycle_counter s11 = SH4_TIMESLICE (Collaborators := demo)
  /\ cycle_counter s11 <> 10 + SH4_TIMESLICE (Collaborators := demo).
Proof. cbv. repeat split. discriminate. Qed.

(** C8 as stated fails: with a budget of 10 and ten [NOP]s, every value
    the counter has before it is used up (the values the semantics sees, 10
    down to 1) is positive, and the counter after the rollover, 448, is none
    of them plus the quantum; it is the exhausted value, 0, plus the
    quantum. *)
Lemma rollover_adds_to_exhausted_value :
  let s := demo_context 0 10 true [] in
  let after_rollover := 448 in
  fst (timeslice (sh4 := demo) 10 s)
  = Normal (mkContext 20 0 after_rollover true tt [])
  /\ fst (inner (sh4 := demo) 10 s) = Normal (mkContext 20 0 0 true tt [])
  /\ after_rollover = 0 + SH4_TIMESLICE (Collaborators := demo)
  /\ Forall (fun e => match e with
                      | CallOp _ _ seen =>
                          0 < cycle_counter seen
                          /\ after_rollover
                             <> cycle_counter seen
                                + SH4_TIMESLICE (Collaborators := demo)
                      | _ => True
                      end)
       (snd (inner (sh4 := demo) 10 s)).
Proof.
  cbv zeta. split; [reflexivity|]. split; [reflexivity|]. split; [reflexivity|].
  vm_compute. repeat constructor; discriminate.
Qed.

(** ** More on [compile]: lists of blocks *)

Lemma compile_all_fst_cons (block : RuntimeBlockInfo) (blocks : list RuntimeBlockInfo)
    (smc opt : bool) (b : Sh4CodeBuffer) :
  fst (compile_all (block :: blocks) smc opt b)
  = fst (compile block smc opt b)
    :: fst (compile_all blocks smc opt (snd (compile block smc opt b))).
Proof.
  simpl. destruct (compile block smc opt b) as [block1 buf1]. simpl.
  destruct (compile_all blocks smc opt buf1). reflexivity.
Qed.

Lemma units_left_nonneg (b : Sh4CodeBuffer) : 0 <= remaining b -> 0 <= units_left b.
Proof. intros H. unfold units_left, getFreeSpace. apply Z.div_pos; lia. Qed.

Lemma units_left_advance (b : Sh4CodeBuffer) :
  units_left (advance 4 b) = units_left b - 1.
Proof.
  unfold units_left, getFreeSpace, advance. cbn [remaining].
  replace (remaining b - 4) with (remaining b + (-1) * 4) by lia.
  rewrite Z.div_add by lia. lia.
Qed.

Lemma units_left_full (b : Sh4CodeBuffer) :
  0 <= remaining b < 4 -> units_left b = 0.
Proof. intros H. unfold units_left, getFreeSpace. apply Z.div_small. exact H. Qed.

Lemma compile_all_length (blocks : list RuntimeBlockInfo) (smc opt : bool) :
  forall b, length (fst (compile_all blocks smc opt b)) = length blocks.
Proof.
  induction blocks as [|block blocks IH]; intros b; [reflexivity|].
  rewrite compile_all_fst_cons. simpl. rewrite IH. reflexivity.
Qed.

(** The entry of the block at position [i] of a list compiled in order. *)
Lemma compile_all_nth_entry (blocks : list RuntimeBlockInfo) (smc opt : bool) :
  forall b i block', 0 <= remaining b ->
    nth_error (fst (compile_all blocks smc opt b)) i = Some block' ->
    code block' = Some (get b + 4 * Z.min (Z.of_nat i) (units_left b)).
Proof.
  induction blocks as [|block blocks IH]; intros b i block' Hr Hn.
  - destruct i; discriminate.
  - rewrite compile_all_fst_cons in Hn.
    pose proof (units_left_nonneg b Hr) as Hu.
    destruct i as [|i]; simpl in Hn.
    + inversion Hn. rewrite compile_entry. f_equal. lia.
    + rewrite compile_buffer in Hn. destruct (4 <=? getFreeSpace b) eqn:E.
      * apply Z.leb_le in E. unfold getFreeSpace in E.
        assert (Hr' : 0 <= remaining (advance 4 b)) by (simpl; lia).
        rewrite (IH _ _ _ Hr' Hn), units_left_advance.
        unfold get, advance. cbn [cursor]. f_equal. lia.
      * apply Z.leb_gt in E. unfold getFreeSpace in E.
        rewrite (IH _ _ _ Hr Hn), units_left_full by lia. f_equal. lia.
Qed.

(** X1.  In a list of blocks compiled in order on a well-formed buffer, the
    block at position [i] gets as entry the start of the buffer's free part
    plus 4 bytes for each earlier block that still found room: blocks past
    the room all get the address where the room ended. *)
Theorem compile_all_entries (blocks : list RuntimeBlockInfo) (smc opt : bool)
    (b : Sh4CodeBuffer) (Hr : 0 <= remaining b) (i : nat) (block' : RuntimeBlockInfo)
    (Hi : nth_error (fst (compile_all blocks smc opt b)) i = Some block') :
  code block' = Some (get b + 4 * Z.min (Z.of_nat i) (units_left b))
  /\ (Z.of_nat i < units_left b -> code block' = Some (get b + 4 * Z.of_nat i))
  /\ (units_left b <= Z.of_nat i ->
      code block' = Some (get (snd (compile_all blocks smc opt b)))).
Proof.
  pose proof (compile_all_nth_entry blocks smc opt b i block' Hr Hi) as H.
  pose proof (units_left_nonneg b Hr) as Hu.
  split; [exact H|]. split.
  - intros Hlt. rewrite H. f_equal. lia.
  - intros Hge. rewrite H, compile_all_closed_form by exact Hr.
    unfold get. cbn [cursor]. f_equal.
    assert (Z.of_nat i < Z.of_nat (length blocks)).
    { apply Nat2Z.inj_lt. rewrite <- (compile_all_length blocks smc opt b).
      apply nth_error_Some. rewrite Hi. discriminate. }
    lia.
Qed.

Lemma compile_all_entries_witness :
  0 <= remaining (mkBuffer 16 6 32)
  /\ nth_error (fst (compile_all [mkBlock 0 None; mkBlock 2 None; mkBlock 4 None]
                       false false (mkBuffer 16 6 32))) 2
     = Some (mkBlock 4 (Some 20))
  /\ code (mkBlock 4 (Some 20)) = Some (16 + 4 * Z.min 2 1).
Proof.
  assert (H : 0 <= remaining (mkBuffer 16 6 32)) by (simpl; lia).
  split; [exact H|]. split; [reflexivity|].
  exact (proj1 (compile_all_entries [mkBlock 0 None; mkBlock 2 None; mkBlock 4 None]
                  false false (mkBuffer 16 6 32) H 2 (mkBlock 4 (Some 20)) eq_refl)).
Defined.

(** X2.  When a well-formed buffer has room for every block of a list, the
    block at position [i] gets the entry [get b + 4 i]; the 4 bytes of an
    earlier block end at or before the entry of a later one, and every unit
    lies inside the free part the buffer had, so below its capacity. *)
Theorem compile_all_units_disjoint (blocks : list RuntimeBlockInfo) (smc opt : bool)
    (b : Sh4CodeBuffer) (Hb : buffer_ok b)
    (Hroom : 4 * Z.of_nat (length blocks) <= getFreeSpace b)
    (i j : nat) (bi bj : RuntimeBlockInfo)
    (Hi : nth_error (fst (compile_all blocks smc opt b)) i = Some bi)
    (Hj : nth_error (fst (compile_all blocks smc opt b)) j = Some bj) :
  exists ei ej,
    code bi = Some ei /\ code bj = Some ej
    /\ ei = get b + 4 * Z.of_nat i
    /\ ((i < j)%nat -> ei + 4 <= ej)
    /\ (i <> j -> ei <> ej)
    /\ get b <= ei /\ ei + 4 <= get b + getFreeSpace b
    /\ ei + 4 <= capacity b.
Proof.
  destruct Hb as (Hc & Hr & Hcap). unfold getFreeSpace in Hroom.
  assert (Hlen : forall k bk,
             nth_error (fst (compile_all blocks smc opt b)) k = Some bk ->
             Z.of_nat k < Z.of_nat (length blocks)).
  { intros k bk Hk. apply Nat2Z.inj_lt.
    rewrite <- (compile_all_length blocks smc opt b).
    apply nth_error_Some. rewrite Hk. discriminate. }
  assert (Hu : Z.of_nat (length blocks) <= units_left b).
  { unfold units_left, getFreeSpace. apply Z.div_le_lower_bound; lia. }
  pose proof (Hlen _ _ Hi) as Li. pose proof (Hlen _ _ Hj) as Lj.
  exists (get b + 4 * Z.of_nat i), (get b + 4 * Z.of_nat j).
  rewrite (compile_all_nth_entry _ _ _ _ _ _ Hr Hi).
  rewrite (compile_all_nth_entry _ _ _ _ _ _ Hr Hj).
  unfold get, getFreeSpace.
  split; [f_equal; lia|]. split; [f_equal; lia|].
  repeat split; lia.
Qed.

Lemma compile_all_units_disjoint_witness :
  buffer_ok (mkBuffer 16 8 32)
  /\ 4 * Z.of_nat (length [mkBlock 0 None; mkBlock 2 None])
     <= getFreeSpace (mkBuffer 16 8 32)
  /\ exists ei ej,
       code (mkBlock 0 (Some 16)) = Some ei /\ code (mkBlock 2 (Some 20)) = Some ej
       /\ ei = get (mkBuffer 16 8 32) + 4 * Z.of_nat 0
       /\ ((0 < 1)%nat -> ei + 4 <= ej)
       /\ (0%nat <> 1%nat -> ei <> ej)
       /\ get (mkBuffer 16 8 32) <= ei
       /\ ei + 4 <= get (mkBuffer 16 8 32) + getFreeSpace (mkBuffer 16 8 32)
       /\ ei + 4 <= capacity (mkBuffer 16 8 32).
Proof.
  assert (Hb : buffer_ok (mkBuffer 16 8 32)) by (unfold buffer_ok; simpl; lia).
  assert (Hroom : 4 * Z.of_nat (length [mkBlock 0 None; mkBlock 2 None])
                  <= getFreeSpace (mkBuffer 16 8 32)) by (simpl; lia).
  split; [exact Hb|]. split; [exact Hroom|].
  apply (compile_all_units_disjoint [mkBlock 0 None; mkBlock 2 None] true false
           (mkBuffer 16 8 32) Hb Hroom 0 1 (mkBlock 0 (Some 16)) (mkBlock 2 (Some 20))
           eq_refl eq_refl).
Defined.

(** X3.  [compile] writes the entry field and nothing else of a block: a
    compiled list has the blocks of the list given, in the same order and
    with the same payload, each with an entry assigned, also when it had
    one before and also when the buffer was full. *)
Theorem compile_all_frame (blocks : list RuntimeBlockInfo) (smc opt : bool)
    (b : Sh4CodeBuffer) :
  map vaddr (fst (compile_all blocks smc opt b)) = map vaddr blocks
  /\ Forall (fun block' => code block' <> None) (fst (compile_all blocks smc opt b))
  /\ capacity (snd (compile_all blocks smc opt b)) = capacity b
  /\ cursor (snd (compile_all blocks smc opt b))
       + remaining (snd (compile_all blocks smc opt b))
     = cursor b + remaining b.
Proof.
  revert b. induction blocks as [|block blocks IH]; intros b.
  - simpl. auto.
  - rewrite compile_all_fst_cons, compile_all_cons.
    destruct (IH (snd (compile block smc opt b))) as (Hv & Hc & Hcap & Hsum).
    simpl map. rewrite Hv, Hcap, Hsum.
    split; [|split; [|split]].
    + f_equal. unfold compile. destruct (4 <=? getFreeSpace b); reflexivity.
    + constructor; [rewrite compile_entry; discriminate|exact Hc].
    + rewrite compile_buffer. destruct (4 <=? getFreeSpace b); reflexivity.
    + rewrite compile_buffer. destruct (4 <=? getFreeSpace b); simpl; lia.
Qed.

(** ** More on the dispatch loop *)

Section MainloopMore.

Context {Fpu Rest : Type} {sh4 : Collaborators Fpu Rest}.

Local Abbreviation context := (Sh4Context Fpu Rest).

Lemma set_CpuRunning_same (s : context) :
  CpuRunning s = false -> set_CpuRunning s false = s.
Proof. destruct s. simpl. intros ->. reflexivity. Qed.


(** X4.  When [mainloop] returns, the running flag of the context is false.
    On a normal return the context is exactly the one the loop ended with
    (its flag was false already, line 143 changes nothing); on a return
    through [catch (...)] it is the context at the throw with the flag
    forced to false. *)
Theorem mainloop_leaves_halted (rounds fuel : nat) (s sf : context) (b : bool)
    (tr : list (event context))
    (Hret : mainloop rounds fuel s = (Some (sf, b), tr)) :
  CpuRunning sf = false
  /\ (b = false -> outer rounds fuel s = (Normal sf, tr))
  /\ (b = true ->
      exists t s', outer rounds fuel s = (Thrown t s', tr)
                   /\ sf = set_CpuRunning s' false).
Proof.
  unfold mainloop in Hret.
  destruct (outer rounds fuel s) as [[s'|t s'|] tr0] eqn:O; inversion Hret; subst.
  - destruct (outer_normal_boundary _ _ _ _ _ O) as [Hr _].
    rewrite (set_CpuRunning_same _ Hr).
    split; [exact Hr|]. split; [reflexivity|discriminate].
  - split; [reflexivity|]. split; [discriminate|].
    intros _. exists t, s'. auto.
Qed.

(** X5.  An exception thrown by the exception entry itself is not handled:
    the loop is left through [catch (...)], with the context the exception
    entry left (no drain cycles added) and the call of the exception entry as
    the last call made. *)
Theorem handler_exception_ends_loop (fuel : nat) (s s1 s2 : context)
    (epc expEvn : Z) (t : thrown) (tr : list (event context))
    (Hraise : timeslice fuel s = (Thrown (SH4ThrownException epc expEvn) s1, tr))
    (Hentry : Do_Exception epc expEvn s1 = Thrown t s2) :
  forall rounds,
    mainloop (S rounds) fuel s
    = (Some (set_CpuRunning s2 false, true), tr ++ [CallDoException epc expEvn s1])
    /\ count is_handler (tr ++ [CallDoException epc expEvn s1]) = 1%nat.
Proof.
  intros rounds. split.
  - unfold mainloop. cbn [outer]. unfold guarded. rewrite Hraise.
    unfold after, handler. rewrite Hentry. reflexivity.
  - rewrite count_app. destruct (timeslice_counts fuel s) as [H _].
    rewrite Hraise in H. cbn [snd] in H. rewrite H. reflexivity.
Qed.

(** X6.  An exception that is not a [SH4ThrownException] never reaches the
    exception entry: the loop is left through [catch (...)] with the context
    at the throw and the calls made until then. *)
Theorem foreign_exception_ends_loop (fuel : nat) (s s1 : context)
    (tr : list (event context))
    (Hraise : timeslice fuel s = (Thrown OtherException s1, tr)) :
  forall rounds,
    mainloop (S rounds) fuel s = (Some (set_CpuRunning s1 false, true), tr)
    /\ count is_handler tr = 0%nat.
Proof.
  intros rounds. split.
  - unfold mainloop. cbn [outer]. unfold guarded. rewrite Hraise. reflexivity.
  - destruct (timeslice_counts fuel s) as [H _].
    rewrite Hraise in H. exact H.
Qed.


Lemma ops_update_bounded (tr : list (event context)) :
  Forall (fun e => is_op e = true) tr -> Forall update_bounded tr.
Proof.
  apply Forall_impl. intros [addr op seen|seen|epc expEvn seen]; simpl; auto.
  discriminate.
Qed.

Lemma timeslice_update_bounded (HQ : 0 <= SH4_TIMESLICE < 2 ^ 31)
    (fuel : nat) (s : context) :
  Forall update_bounded (snd (timeslice fuel s)).
Proof.
  unfold timeslice.
  pose proof (inner_only_ops fuel s) as Ho.
  pose proof (inner_normal_exhausted fuel s) as He.
  destruct (inner fuel s) as [[s1|t s1|] tr]; cbn [fst snd] in *;
    try (apply ops_update_bounded; exact Ho).
  destruct (He s1 eq_refl) as [Hle Hint].
  unfold after, rollover. cbn [fst snd]. apply Forall_app. split.
  - apply ops_update_bounded. exact Ho.
  - constructor; [|constructor]. simpl.
    rewrite s32_id by (unfold is_int in *; lia). unfold is_int in *. lia.
Qed.

Lemma guarded_update_bounded (HQ : 0 <= SH4_TIMESLICE < 2 ^ 31)
    (fuel : nat) (s : context) :
  Forall update_bounded (snd (guarded fuel s)).
Proof.
  unfold guarded. pose proof (timeslice_update_bounded HQ fuel s) as H.
  destruct (timeslice fuel s) as [[s'|[epc expEvn|] s'|] tr]; simpl in H; try exact H.
  unfold after, handler. cbn [snd]. apply Forall_app. split; [exact H|].
  destruct (Do_Exception epc expEvn s'); repeat constructor.
Qed.

Lemma outer_update_bounded (HQ : 0 <= SH4_TIMESLICE < 2 ^ 31) (rounds fuel : nat) :
  forall s : context, Forall update_bounded (snd (outer rounds fuel s)).
Proof.
  induction rounds as [|rounds IH]; intros s; [constructor|].
  cbn [outer]. pose proof (guarded_update_bounded HQ fuel s) as H.
  destruct (guarded fuel s) as [[s'|t s'|] tr]; simpl in H; try exact H.
  destruct (CpuRunning s'); [|exact H].
  unfold after. cbn [snd]. apply Forall_app. auto.
Qed.

(** X7.  In every run of [mainloop] the system step is entered with a
    budget that is an [int] and at most [SH4_TIMESLICE]: what is left of a
    timeslice is never added to the next, only an overdraft is carried. *)
Theorem system_step_budget_bounded (HQ : 0 <= SH4_TIMESLICE < 2 ^ 31)
    (rounds fuel : nat) (s : context) :
  Forall update_bounded (snd (mainloop rounds fuel s)).
Proof.
  unfold mainloop. pose proof (outer_update_bounded HQ rounds fuel s) as H.
  destruct (outer rounds fuel s) as [[s'|t s'|] tr]; exact H.
Qed.

(** X8.  At the top of the address space the advance wraps.  An
    instruction at 0xFFFFFFFE whose opcode is read and passes the
    floating-point guard is dispatched, and its semantics sees the program
    counter 0; that call is the first call [mainloop] makes from such a
    context. *)
Theorem dispatch_wraps_at_top (s : context) (op : Z)
    (Htop : pc s = 2 ^ 32 - 2)
    (Hread : IReadMem16 (set_pc s 0) (pc s) = inl op)
    (Hguard : (sr_FD s =? 1) && IsFloatingPoint op = false) :
  snd (insn s) = [CallOp (2 ^ 32 - 2) op (set_pc s 0)]
  /\ pc (set_pc s 0) = 0
  /\ forall rounds fuel,
       exists more,
         snd (mainloop (S rounds) (S fuel) s)
         = CallOp (2 ^ 32 - 2) op (set_pc s 0) :: more.
Proof.
  assert (E0 : set_pc s (u32 (pc s + 2)) = set_pc s 0)
    by (rewrite Htop; reflexivity).
  assert (E : snd (insn s) = [CallOp (2 ^ 32 - 2) op (set_pc s 0)]).
  { rewrite (insn_dispatch s op); rewrite ?E0; auto.
    cbn [snd]. rewrite Htop. reflexivity. }
  split; [exact E|]. split; [reflexivity|].
  intros rounds fuel. destruct (mainloop_starts rounds fuel s) as [more Hm].
  rewrite E in Hm. exists more. exact Hm.
Qed.

(** As [inner_countdown], with the invariant at the end. *)
Lemma inner_countdown_inv (Inv : context -> Prop) (k : nat) :
  forall s fuel,
    (forall s0, Inv s0 -> 0 < cycle_counter s0 <= Z.of_nat (S k) ->
       exists s', fst (insn s0) = Normal s' /\ Inv s'
                  /\ cycle_counter s' = cycle_counter s0 - 1) ->
    Inv s ->
    cycle_counter s = Z.of_nat (S k) ->
    exists s' tr,
      inner (S k + fuel) s = (Normal s', tr)
      /\ length tr = S k /\ cycle_counter s' = 0 /\ Inv s'.
Proof.
  induction k as [|k IH]; intros s fuel Hcost Hinv Hs.
  - destruct (Hcost s Hinv) as (s' & Hn & Hinv' & Hc); [lia|].
    cbn [Nat.add]. rewrite inner_step.
    destruct (insn s) as [o tr] eqn:E. simpl in Hn. subst o.
    destruct (insn_normal _ _ _ E) as (op & s1 & _ & _ & ->).
    assert (C : (0 <? cycle_counter s') = false) by (apply Z.ltb_ge; lia).
    rewrite C. eexists _, _. repeat split; [lia|exact Hinv'].
  - destruct (Hcost s Hinv) as (s' & Hn & Hinv' & Hc); [lia|].
    cbn [Nat.add]. rewrite inner_step.
    destruct (insn s) as [o tr] eqn:E. simpl in Hn. subst o.
    destruct (insn_normal _ _ _ E) as (op & s1 & _ & _ & ->).
    assert (C : (0 <? cycle_counter s') = true) by (apply Z.ltb_lt; lia).
    rewrite C.
    destruct (IH s' fuel) as (s'' & tr' & Hi & Hl & Hz & Hinv'').
    + intros s0 Hinv0 H0. apply Hcost; [exact Hinv0|lia].
    + exact Hinv'.
    + lia.
    + cbn [Nat.add] in Hi. rewrite Hi. unfold after. simpl.
      eexists _, _. repeat split; [|exact Hz|exact Hinv''].
      simpl. rewrite Hl. reflexivity.
Qed.

(** X9.  How long a timeslice is.  With instructions that cost one cycle
    each and raise nothing, a timeslice entered with a budget [c] dispatches
    [c] instructions when [c] is positive and one instruction when it is
    not; the system step is then called with the budget [SH4_TIMESLICE] in
    the first case and [SH4_TIMESLICE + c - 1] in the second. *)
Theorem timeslice_length (HQ : 0 <= SH4_TIMESLICE < 2 ^ 31)
    (Inv : context -> Prop) (c : Z)
    (Hcost : forall s0 : context, Inv s0 ->
       cycle_counter s0 = c \/ 0 < cycle_counter s0 < c ->
       exists s', fst (insn s0) = Normal s' /\ Inv s'
                  /\ cycle_counter s' = cycle_counter s0 - 1)
    (s : context) (Hinv : Inv s) (Hbudget : cycle_counter s = c) (fuel : nat) :
  let n := Z.to_nat (Z.max c 1) in
  exists s' tr,
    inner (n + fuel) s = (Normal s', tr)
    /\ length tr = n
    /\ Forall (fun e => is_op e = true) tr
    /\ cycle_counter s' = Z.min (c - 1) 0
    /\ Inv s'
    /\ let s2 := set_cycle_counter s' (SH4_TIMESLICE + Z.min (c - 1) 0) in
       timeslice (n + fuel) s = (UpdateSystem_INTC s2, tr ++ [CallUpdateSystem s2]).
Proof.
  intros n.
  assert (H : exists s' tr,
             inner (n + fuel) s = (Normal s', tr) /\ length tr = n
             /\ cycle_counter s' = Z.min (c - 1) 0 /\ Inv s').
  { destruct (Z_lt_le_dec 0 c) as [Hpos|Hneg].
    - assert (Hn : n = S (Z.to_nat (c - 1))) by (subst n; lia).
      rewrite Hn.
      destruct (inner_countdown_inv Inv (Z.to_nat (c - 1)) s fuel)
        as (s' & tr & Hi & Hl & Hz & Hinv').
      + intros s0 Hinv0 H0. apply Hcost; [exact Hinv0|lia].
      + exact Hinv.
      + lia.
      + exists s', tr. repeat split; auto. lia.
    - assert (Hn : n = 1%nat) by (subst n; lia).
      rewrite Hn. cbn [Nat.add]. rewrite inner_step.
      destruct (Hcost s Hinv) as (s' & Hs' & Hinv' & Hc); [left; exact Hbudget|].
      destruct (insn s) as [o tr] eqn:E. simpl in Hs'. subst o.
      destruct (insn_normal _ _ _ E) as (op & s1 & _ & _ & ->).
      assert (C : (0 <? cycle_counter s') = false) by (apply Z.ltb_ge; lia).
      rewrite C. eexists _, _. repeat split; [lia|exact Hinv']. }
  destruct H as (s' & tr & Hi & Hl & Hz & Hinv').
  exists s', tr. split; [exact Hi|]. split; [exact Hl|]. split.
  - pose proof (inner_only_ops (n + fuel) s) as Ho. rewrite Hi in Ho. exact Ho.
  - split; [exact Hz|]. split; [exact Hinv'|]. intros s2.
    destruct (timeslice_rollover HQ _ _ _ _ Hi) as (_ & Ht).
    rewrite Ht. subst s2. rewrite Hz, Z.add_comm. reflexivity.
Qed.

(** X10.  A fault storm.  From contexts on which every instruction raises
    a processor exception and the exception entry returns with the running
    flag set, the loop never reaches a rollover: in every round the
    exception entry is called once, the system step is never called, and
    [mainloop] does not return, however long it runs. *)
Theorem fault_storm_starves_system_step (Inv : context -> Prop)
    (Hfault : forall s0 : context, Inv s0 ->
       exists epc expEvn s1 tr1 s2,
         insn s0 = (Thrown (SH4ThrownException epc expEvn) s1, tr1)
         /\ Do_Exception epc expEvn s1 = Normal s2
         /\ CpuRunning s2 = true
         /\ Inv (set_cycle_counter s2 (s32 (cycle_counter s2 + 5))))
    (rounds fuel : nat) :
  forall s : context, Inv s ->
    fst (outer rounds (S fuel) s) = OutOfFuel
    /\ count is_update (snd (outer rounds (S fuel) s)) = 0%nat
    /\ count is_handler (snd (outer rounds (S fuel) s)) = rounds
    /\ fst (mainloop rounds (S fuel) s) = None.
Proof.
  assert (H : forall s : context, Inv s ->
             fst (outer rounds (S fuel) s) = OutOfFuel
             /\ count is_update (snd (outer rounds (S fuel) s)) = 0%nat
             /\ count is_handler (snd (outer rounds (S fuel) s)) = rounds).
  { induction rounds as [|rounds IH]; intros s Hinv; [repeat split|].
    destruct (Hfault s Hinv) as (epc & expEvn & s1 & tr1 & s2 & Hi & Hd & Hr & Hinv').
    pose proof (insn_only_ops s) as Ho. rewrite Hi in Ho. cbn [snd] in Ho.
    assert (E : outer (S rounds) (S fuel) s
                = after (tr1 ++ [CallDoException epc expEvn s1])
                    (outer rounds (S fuel)
                       (set_cycle_counter s2 (s32 (cycle_counter s2 + 5))))).
    { cbn [outer]. unfold guarded, timeslice. rewrite inner_step, Hi.
      unfold after at 1, handler. rewrite Hd.
      cbn [fst snd CpuRunning set_cycle_counter]. rewrite Hr. reflexivity. }
    rewrite E. destruct (IH _ Hinv') as (Hf & Hu & Hh).
    unfold after. cbn [fst snd]. rewrite !count_app, Hu, Hh.
    rewrite (count_ops_only is_update tr1), (count_ops_only is_handler tr1)
      by auto using ops_not_update, ops_not_handler.
    split; [exact Hf|]. split; reflexivity. }
  intros s Hinv. destruct (H s Hinv) as (Hf & Hu & Hh).
  split; [exact Hf|]. split; [exact Hu|]. split; [exact Hh|].
  unfold mainloop. destruct (outer rounds (S fuel) s) as [[s'|t s'|] tr];
    simpl in Hf; try discriminate. reflexivity.
Qed.

Lemma u32_in_u32 (z : Z) : in_u32 (u32 z).
Proof. unfold in_u32, u32. apply Z.mod_pos_bound. reflexivity. Qed.

Lemma u32_id (z : Z) : in_u32 z -> u32 z = z.
Proof. unfold in_u32, u32. intros H. apply Z.mod_small. exact H. Qed.

Lemma u32_add (n j k : Z) : u32 (u32 (n + j) + k) = u32 (n + (j + k)).
Proof. unfold u32. rewrite Zplus_mod_idemp_l. f_equal. lia. Qed.

Lemma insn_ops_at_most_one (s : context) : (count is_op (snd (insn s)) <= 1)%nat.
Proof.
  destruct (insn_trace s) as [E|(op & _ & _ & E)]; rewrite E; unfold count; simpl; lia.
Qed.

Lemma inner_counted_spec (fuel : nat) :
  forall (s : context) (n : Z), in_u32 n ->
    exists k,
      inner_counted fuel s n = (inner fuel s, u32 (n + k))
      /\ 0 <= k <= Z.of_nat (count is_op (snd (inner fuel s)))
      /\ Z.of_nat (count is_op (snd (inner fuel s))) - 1 <= k
      /\ (forall s1, fst (inner fuel s) = Normal s1 ->
          k = Z.of_nat (count is_op (snd (inner fuel s)))).
Proof.
  induction fuel as [|fuel IH]; intros s n Hn.
  - exists 0. simpl. rewrite Z.add_0_r, u32_id by exact Hn.
    repeat split; try lia; try discriminate.
  - cbn [inner_counted]. rewrite inner_step.
    pose proof (insn_ops_at_most_one s) as H1.
    destruct (insn s) as [[s'|t s'|] tr] eqn:E; cbn [snd] in H1.
    + destruct (insn_normal _ _ _ E) as (op & s0 & _ & _ & ->).
      destruct (0 <? cycle_counter s').
      * destruct (IH s' (u32 (n + 1)) (u32_in_u32 _)) as (k & Hk & Hb & Hl & Hnorm).
        rewrite Hk. exists (1 + k). rewrite u32_add.
        unfold after. cbn [fst snd]. rewrite count_app.
        change (count is_op [CallOp (pc s) op (set_pc s (u32 (pc s + 2)))])
          with 1%nat.
        split; [reflexivity|]. split; [lia|]. split; [lia|].
        intros s1 H. rewrite (Hnorm s1 H). lia.
      * exists 1. cbn [fst snd]. split; [reflexivity|].
        change (count is_op [CallOp (pc s) op (set_pc s (u32 (pc s + 2)))])
          with 1%nat.
        repeat split; lia.
    + exists 0. rewrite Z.add_0_r, u32_id by exact Hn. cbn [fst snd].
      repeat split; try lia; try discriminate.
    + exists 0. rewrite Z.add_0_r, u32_id by exact Hn. cbn [fst snd].
      repeat split; try lia; try discriminate.
Qed.

Lemma timeslice_ops (fuel : nat) (s : context) :
  count is_op (snd (timeslice fuel s)) = count is_op (snd (inner fuel s)).
Proof.
  unfold timeslice. destruct (inner fuel s) as [[s'|t s'|] tr]; try reflexivity.
  unfold after, rollover. cbn [fst snd]. rewrite count_app.
  unfold count at 2. simpl. lia.
Qed.

Lemma timeslice_counted_spec (fuel : nat) (s : context) (c : counters) :
  in_u32 (insn_count c) -> in_u32 (timeslice_count c) ->
  exists k,
    timeslice_counted fuel s c
    = (timeslice fuel s,
       mkCounters (u32 (insn_count c + k))
         (u32 (timeslice_count c
               + Z.of_nat (count is_update (snd (timeslice fuel s))))))
    /\ 0 <= k <= Z.of_nat (count is_op (snd (timeslice fuel s)))
    /\ Z.of_nat (count is_op (snd (timeslice fuel s))) - 1 <= k
    /\ (forall s1, fst (timeslice fuel s) = Normal s1 ->
        k = Z.of_nat (count is_op (snd (timeslice fuel s)))).
Proof.
  intros Hn Hm.
  destruct (inner_counted_spec fuel s (insn_count c) Hn) as (k & Hk & Hb & Hl & Hnorm).
  destruct (timeslice_counts fuel s) as [_ Hu].
  exists k. rewrite timeslice_ops, Hu. unfold timeslice_counted. rewrite Hk.
  split; [|split; [exact Hb|split; [exact Hl|]]].
  - unfold timeslice. destruct (inner fuel s) as [[s'|t s'|] tr]; cbn [fst].
    + reflexivity.
    + rewrite Z.add_0_r, (u32_id _ Hm). reflexivity.
    + rewrite Z.add_0_r, (u32_id _ Hm). reflexivity.
  - intros s1 H. unfold timeslice in H.
    destruct (inner fuel s) as [[s'|t s'|] tr]; try discriminate.
    apply (Hnorm s'). reflexivity.
Qed.

Lemma guarded_counted_spec (fuel : nat) (s : context) (c : counters) :
  in_u32 (insn_count c) -> in_u32 (timeslice_count c) ->
  exists k,
    guarded_counted fuel s c
    = (guarded fuel s,
       mkCounters (u32 (insn_count c + k))
         (u32 (timeslice_count c
               + Z.of_nat (count is_update (snd (guarded fuel s))))))
    /\ 0 <= k <= Z.of_nat (count is_op (snd (guarded fuel s)))
    /\ Z.of_nat (count is_op (snd (guarded fuel s)))
       - Z.of_nat (count is_handler (snd (guarded fuel s))) - 1 <= k
    /\ (forall s1, fst (guarded fuel s) = Normal s1 ->
        Z.of_nat (count is_op (snd (guarded fuel s)))
        - Z.of_nat (count is_handler (snd (guarded fuel s))) <= k).
Proof.
  intros Hn Hm.
  destruct (timeslice_counted_spec fuel s c Hn Hm) as (k & Hk & Hb & Hl & Hnorm).
  destruct (timeslice_counts fuel s) as [Hh _].
  exists k. unfold guarded_counted, guarded. rewrite Hk.
  destruct (timeslice fuel s) as [[s'|[epc expEvn|] s'|] tr]; cbn [fst snd] in *.
  - rewrite Hh. split; [reflexivity|]. split; [exact Hb|]. split; [lia|].
    intros s1 _. rewrite (Hnorm s' eq_refl). lia.
  - assert (Ho : count is_op (snd (handler epc expEvn s')) = 0%nat
                 /\ count is_update (snd (handler epc expEvn s')) = 0%nat
                 /\ count is_handler (snd (handler epc expEvn s')) = 1%nat).
    { unfold handler. destruct (Do_Exception epc expEvn s'); repeat split. }
    destruct Ho as (Ho & Hu & Hd).
    unfold after. cbn [fst snd]. rewrite !count_app, Ho, Hu, Hd, Hh.
    rewrite !Nat.add_0_r. split; [reflexivity|]. repeat split; lia.
  - rewrite Hh. split; [reflexivity|]. split; [exact Hb|]. split; [lia|].
    discriminate.
  - rewrite Hh. split; [reflexivity|]. split; [exact Hb|]. split; [lia|].
    discriminate.
Qed.

Lemma outer_counted_spec (rounds fuel : nat) :
  forall (s : context) (c : counters),
    in_u32 (insn_count c) -> in_u32 (timeslice_count c) ->
    exists k,
      outer_counted rounds fuel s c
      = (outer rounds fuel s,
         mkCounters (u32 (insn_count c + k))
           (u32 (timeslice_count c
                 + Z.of_nat (count is_update (snd (outer rounds fuel s))))))
      /\ 0 <= k <= Z.of_nat (count is_op (snd (outer rounds fuel s)))
      /\ Z.of_nat (count is_op (snd (outer rounds fuel s)))
         - Z.of_nat (count is_handler (snd (outer rounds fuel s))) - 1 <= k
      /\ (forall s1, fst (outer rounds fuel s) = Normal s1 ->
          Z.of_nat (count is_op (snd (outer rounds fuel s)))
          - Z.of_nat (count is_handler (snd (outer rounds fuel s))) <= k).
Proof.
  induction rounds as [|rounds IH]; intros s c Hn Hm.
  - exists 0. simpl. rewrite !Z.add_0_r, (u32_id _ Hn), (u32_id _ Hm).
    destruct c. repeat split; try lia; try discriminate.
  - destruct (guarded_counted_spec fuel s c Hn Hm) as (k & Hk & Hb & Hl & Hnorm).
    cbn [outer_counted outer]. rewrite Hk.
    destruct (guarded fuel s) as [[s'|t s'|] tr]; cbn [fst snd] in *.
    + destruct (CpuRunning s').
      * destruct (IH s' (mkCounters (u32 (insn_count c + k))
                           (u32 (timeslice_count c + Z.of_nat (count is_update tr))))
                    (u32_in_u32 _) (u32_in_u32 _))
          as (k' & Hk' & Hb' & Hl' & Hnorm').
        rewrite Hk'. cbn [insn_count timeslice_count]. rewrite !u32_add.
        exists (k + k'). unfold after. cbn [fst snd]. rewrite !count_app.
        rewrite !Nat2Z.inj_add. specialize (Hnorm s' eq_refl).
        split; [reflexivity|]. split; [lia|]. split; [lia|].
        intros s1 H. specialize (Hnorm' s1 H). lia.
      * exists k. cbn [fst snd]. split; [reflexivity|]. split; [exact Hb|].
        split; [exact Hl|]. intros s1 _. apply (Hnorm s'). reflexivity.
    + exists k. split; [reflexivity|]. split; [exact Hb|]. split; [exact Hl|].
      discriminate.
    + exists k. split; [reflexivity|]. split; [exact Hb|]. split; [exact Hl|].
      discriminate.
Qed.

(** X13.  The diagnostic counters.  Carrying them changes nothing of what
    [mainloop] does.  When the loop is left, or the run is cut,
    [timeslice_count] is the number of calls of the system step, and
    [insn_count] the number of calls of the semantics table less those that
    did not return, which are at most one for each call of the exception
    entry and one for the end of the run (none for a normal return); both
    as [u32] values. *)
Theorem counters_count_calls (rounds fuel : nat) (s : context) :
  let run := mainloop rounds fuel s in
  let c := snd (mainloop_counted rounds fuel s) in
  fst (mainloop_counted rounds fuel s) = run
  /\ timeslice_count c = u32 (Z.of_nat (count is_update (snd run)))
  /\ exists k,
       insn_count c = u32 k
       /\ 0 <= k <= Z.of_nat (count is_op (snd run))
       /\ Z.of_nat (count is_op (snd run))
          - Z.of_nat (count is_handler (snd run)) - 1 <= k
       /\ (forall sf, fst run = Some (sf, false) ->
           Z.of_nat (count is_op (snd run))
           - Z.of_nat (count is_handler (snd run)) <= k).
Proof.
  intros run c. subst run c. unfold mainloop_counted, mainloop.
  assert (H0 : in_u32 0) by (unfold in_u32; lia).
  destruct (outer_counted_spec rounds fuel s (mkCounters 0 0) H0 H0)
    as (k & Hk & Hb & Hl & Hnorm).
  rewrite Hk. cbn [insn_count timeslice_count] in *. rewrite !Z.add_0_l in *.
  destruct (outer rounds fuel s) as [[s'|t s'|] tr]; cbn [fst snd] in *.
  - split; [reflexivity|]. split; [reflexivity|]. exists k.
    split; [reflexivity|]. split; [exact Hb|]. split; [exact Hl|].
    intros sf _. apply (Hnorm s'). reflexivity.
  - split; [reflexivity|]. split; [reflexivity|]. exists k.
    split; [reflexivity|]. split; [exact Hb|]. split; [exact Hl|]. discriminate.
  - split; [reflexivity|]. split; [reflexivity|]. exists k.
    split; [reflexivity|]. split; [exact Hb|]. split; [exact Hl|]. discriminate.
Qed.

End MainloopMore.

(** ** Registration *)

(** X14.  [wasm_dynarec_init] never displaces a backend that has
    registered, leaves the pointer non-null, and called again changes
    nothing; after the static instance's constructor has run it is a no-op:
    the pointer stays at the instance. *)
Theorem wasm_dynarec_init_keeps_selection {A : Type} (instance : A)
    (sh4Dynarec : option A) (n : nat) :
  let after_calls := Nat.iter (S n) (wasm_dynarec_init instance) sh4Dynarec in
  after_calls <> None
  /\ after_calls = wasm_dynarec_init instance sh4Dynarec
  /\ (forall other, sh4Dynarec = Some other -> after_calls = Some other)
  /\ (sh4Dynarec = None -> after_calls = Some instance)
  /\ Nat.iter n (wasm_dynarec_init instance) (WasmDynarec_new instance sh4Dynarec)
     = Some instance.
Proof.
  assert (Hfix : forall (g : option A) k, g <> None ->
                   Nat.iter k (wasm_dynarec_init instance) g = g).
  { intros g k Hg. induction k as [|k IH]; [reflexivity|].
    simpl. rewrite IH. destruct g; [reflexivity|now elim Hg]. }
  assert (Hsome : wasm_dynarec_init instance sh4Dynarec <> None)
    by (destruct sh4Dynarec; discriminate).
  assert (E : Nat.iter (S n) (wasm_dynarec_init instance) sh4Dynarec
              = wasm_dynarec_init instance sh4Dynarec).
  { rewrite Nat.iter_succ_r. apply Hfix. exact Hsome. }
  intros after_calls. subst after_calls. rewrite E.
  split; [exact Hsome|]. split; [reflexivity|]. split; [|split].
  - intros other ->. reflexivity.
  - intros ->. reflexivity.
  - apply Hfix. discriminate.
Qed.

(** ** More runs of the small machine *)

Lemma mainloop_leaves_halted_witness :
  let s := demo_context 0 1 true [0x001B] in
  let sf := mkContext 2 0 448 false tt [0x001B] in
  mainloop (sh4 := demo) 2 2 s
  = (Some (sf, false), [CallOp 0 0x001B (set_pc s 2); CallUpdateSystem sf])
  /\ CpuRunning sf = false.
Proof.
  intros s sf. split; [reflexivity|].
  exact (proj1 (mainloop_leaves_halted (sh4 := demo) 2 2 s sf false
                  [CallOp 0 0x001B (set_pc s 2); CallUpdateSystem sf] eq_refl)).
Defined.

Lemma handler_exception_ends_loop_witness :
  let s := demo_context 1 100 true [0xF00C] in
  timeslice (sh4 := demo_broken) 3 s
  = (Thrown (SH4ThrownException 0 0x800) (set_pc s 2), [])
  /\ mainloop (sh4 := demo_broken) 1 3 s
     = (Some (set_CpuRunning (set_pc s 2) false, true),
        [] ++ [CallDoException 0 0x800 (set_pc s 2)]).
Proof.
  intros s. split; [reflexivity|].
  exact (proj1 (handler_exception_ends_loop (sh4 := demo_broken) 3 s (set_pc s 2)
                  (set_pc s 2) 0 0x800 (SH4ThrownException 0 0x800) []
                  eq_refl eq_refl 0%nat)).
Defined.

Lemma foreign_exception_ends_loop_witness :
  let s := demo_context 0 100 true [0x0009; 0x0000] in
  let s1 := mkContext 4 0 99 true tt [0x0009; 0x0000] in
  timeslice (sh4 := demo_broken) 3 s
  = (Thrown OtherException s1, [CallOp 0 9 (set_pc s 2); CallOp 2 0 s1])
  /\ mainloop (sh4 := demo_broken) 1 3 s
     = (Some (set_CpuRunning s1 false, true),
        [CallOp 0 9 (set_pc s 2); CallOp 2 0 s1]).
Proof.
  intros s s1. split; [reflexivity|].
  exact (proj1 (foreign_exception_ends_loop (sh4 := demo_broken) 3 s s1
                  [CallOp 0 9 (set_pc s 2); CallOp 2 0 s1] eq_refl 0%nat)).
Defined.


Lemma system_step_budget_bounded_witness :
  0 <= SH4_TIMESLICE (Collaborators := demo) < 2 ^ 31
  /\ Forall (update_bounded (sh4 := demo))
       (snd (mainloop (sh4 := demo) 2 5 (demo_context 0 (-3) true [0x001B]))).
Proof.
  assert (HQ : 0 <= SH4_TIMESLICE (Collaborators := demo) < 2 ^ 31)
    by (cbn; lia).
  split; [exact HQ|].
  apply (system_step_budget_bounded (sh4 := demo) HQ 2 5
           (demo_context 0 (-3) true [0x001B])).
Defined.

(** On the contexts of [all_nops] an instruction returns and costs one
    cycle, whatever the budget, as long as the counter stays an [int]. *)
Lemma demo_nop_cost_any (s0 : Sh4Context unit (list Z)) :
  all_nops s0 -> is_int (cycle_counter s0 - 1) ->
  exists s', fst (insn (sh4 := demo) s0) = Normal s' /\ all_nops s'
             /\ cycle_counter s' = cycle_counter s0 - 1.
Proof.
  destruct s0 as [p fd c r f m]. unfold all_nops. simpl.
  intros [-> ->] Hc. unfold insn. simpl.
  destruct (Z.to_nat (p / 2)); simpl;
    (eexists; split; [reflexivity|]; simpl; split; [auto|];
     apply s32_id; exact Hc).
Qed.

Lemma timeslice_length_witness :
  let s := demo_context 0 (-2) true [] in
  all_nops s /\ cycle_counter s = -2
  /\ exists s' tr,
       inner (sh4 := demo) (1 + 0) s = (Normal s', tr)
       /\ length tr = 1%nat
       /\ Forall (fun e => is_op e = true) tr
       /\ cycle_counter s' = -3
       /\ all_nops s'
       /\ let s2 := set_cycle_counter s' 445 in
          timeslice (sh4 := demo) (1 + 0) s = (Normal s2, tr ++ [CallUpdateSystem s2]).
Proof.
  intros s.
  assert (Hinv : all_nops s) by (split; reflexivity).
  assert (HQ : 0 <= SH4_TIMESLICE (Collaborators := demo) < 2 ^ 31)
    by (cbn; lia).
  split; [exact Hinv|]. split; [reflexivity|].
  apply (timeslice_length (sh4 := demo) HQ all_nops (-2)
           (fun s0 Hs0 Hc =>
              demo_nop_cost_any s0 Hs0
                ltac:(unfold is_int; destruct Hc as [Hc|Hc]; lia))
           s Hinv eq_refl 0%nat).
Defined.

(** On the contexts of [storming] every instruction raises the
    FPU-disabled exception and the exception entry returns to the vector,
    which is such a context again. *)
Lemma demo_storm_faults (s0 : Sh4Context unit (list Z)) :
  storming s0 ->
  exists epc expEvn s1 tr1 s2,
    insn (sh4 := demo) s0 = (Thrown (SH4ThrownException epc expEvn) s1, tr1)
    /\ Do_Exception (Collaborators := demo) epc expEvn s1 = Normal s2
    /\ CpuRunning s2 = true
    /\ storming (set_cycle_counter s2 (s32 (cycle_counter s2 + 5))).
Proof.
  destruct s0 as [p fd c r f m]. unfold storming. simpl.
  intros (-> & -> & -> & [-> | ->]);
    (eexists _, _, _, _, _; split; [reflexivity|]; split; [reflexivity|];
     split; [reflexivity|]; simpl; auto).
Qed.

Lemma fault_storm_starves_system_step_witness :
  let s := mkContext 0 1 100 true tt storm_program in
  storming s
  /\ fst (outer (sh4 := demo) 50 (S 0) s) = OutOfFuel
  /\ count is_update (snd (outer (sh4 := demo) 50 (S 0) s)) = 0%nat
  /\ count is_handler (snd (outer (sh4 := demo) 50 (S 0) s)) = 50%nat
  /\ fst (mainloop (sh4 := demo) 50 (S 0) s) = None.
Proof.
  intros s.
  assert (Hinv : storming s) by (unfold storming; simpl; auto).
  split; [exact Hinv|].
  apply (fault_storm_starves_system_step (sh4 := demo) storming demo_storm_faults
           50 0 s Hinv).
Defined.

Lemma dispatch_wraps_at_top_witness :
  let s := mkContext (2 ^ 32 - 2) 0 5 true tt [] in
  pc s = 2 ^ 32 - 2
  /\ snd (insn (sh4 := demo) s) = [CallOp (2 ^ 32 - 2) 9 (set_pc s 0)].
Proof.
  intros s. split; [reflexivity|].
  exact (proj1 (dispatch_wraps_at_top (sh4 := demo) s 9 eq_refl eq_refl eq_refl)).
Defined.
